(** * ConverterApp: the conversion functions of [converter.py]

    The three functions behind the two tabs of the application are embedded
    here:
    - [convert_pdf_to_images] (PDF -> one PNG per page),
    - [images_to_pdf] (every matching image of a directory -> one PDF),
    - [images_to_pdf_from_files] (an ordered list of image files -> one PDF).

    They are sequential programs over the file system, so they are written
    in a small state-and-exception monad over a file-system state.  Python
    strings are modelled by [string], read as the sequence of their code
    points (code points below 256). *)

From Stdlib Require Import ZArith Ascii String List Bool Lia.
From stdpp Require Import base option list gmap strings sorting pretty.

Local Open Scope string_scope.
Local Open Scope Z_scope.

(** ** Python string operations used by the converter *)

Module PyStr.

(** [str.lower] on one code point: A-Z, and the upper-case letters of the
    Latin-1 supplement (U+00C0..U+00DE without the multiplication sign
    U+00D7), move up by 32; everything else is unchanged. *)
Definition lower_char (c : ascii) : ascii :=
  let n := N_of_ascii c in
  if ((65 <=? n) && (n <=? 90))%N
     || ((192 <=? n) && (n <=? 222) && negb (n =? 215))%N
  then ascii_of_N (n + 32)
  else c.

(** [s.lower()] *)
Fixpoint lower (s : string) : string :=
  match s with
  | EmptyString => EmptyString
  | String c s' => String (lower_char c) (lower s')
  end.

(** [s.endswith(suffix)]: the last [len(suffix)] characters of [s] are
    compared with [suffix]. *)
Definition endswith (s suffix : string) : bool :=
  let n := String.length s in
  let k := String.length suffix in
  (k <=? n)%nat && String.eqb (String.substring (n - k) k s) suffix.

(** [s.endswith(tuple(exts))]: some member of the tuple is a suffix. *)
Definition endswith_any (s : string) (exts : list string) : bool :=
  existsb (endswith s) exts.

(** The order of [<=] on [str]: code point by code point, a proper prefix
    first. *)
Definition le (s t : string) : Prop := String.le s t.

(** [list.sort()] on a list of [str]. *)
Definition sort (l : list string) : list string := merge_sort String.le l.

(** [str.isspace] on one code point below 256: the ASCII white space and
    separators, NEL and the no-break space. *)
Definition is_space (c : ascii) : bool :=
  let n := N_of_ascii c in
  ((9 <=? n) && (n <=? 13))%N || ((28 <=? n) && (n <=? 32))%N
  || (n =? 133)%N || (n =? 160)%N.

(** [s.lstrip()] *)
Fixpoint lstrip (s : string) : string :=
  match s with
  | EmptyString => EmptyString
  | String c s' => if is_space c then lstrip s' else s
  end.

(** [s.rstrip()]: what is left of [s] once the white space at its end is
    dropped. *)
Fixpoint rstrip (s : string) : string :=
  match s with
  | EmptyString => EmptyString
  | String c s' =>
      match rstrip s' with
      | EmptyString => if is_space c then EmptyString else String c EmptyString
      | t => String c t
      end
  end.

(** [s.strip()] *)
Definition strip (s : string) : string := rstrip (lstrip s).

(** [s.split(sep)] for a one-character separator: the pieces between the
    occurrences of [sep], empty pieces included. *)
Fixpoint split (sep : ascii) (s : string) : list string :=
  match s with
  | EmptyString => [EmptyString]
  | String c s' =>
      if Ascii.eqb c sep then EmptyString :: split sep s'
      else match split sep s' with
           | piece :: pieces => String c piece :: pieces
           | [] => [String c EmptyString]
           end
  end.

(** [sep.join(pieces)] for a one-character separator. *)
Fixpoint join (sep : ascii) (pieces : list string) : string :=
  match pieces with
  | [] => EmptyString
  | [p] => p
  | p :: rest => p +:+ String sep (join sep rest)
  end.

(** [sep in s] for a one-character [sep]. *)
Fixpoint contains (sep : ascii) (s : string) : bool :=
  match s with
  | EmptyString => false
  | String c s' => Ascii.eqb c sep || contains sep s'
  end.

(** Every character of [s] is white space ([s] is empty or
    [s.isspace()]). *)
Fixpoint all_space (s : string) : bool :=
  match s with
  | EmptyString => true
  | String c s' => is_space c && all_space s'
  end.

End PyStr.

(** ** The fragment of Pillow the converter calls

    An image is its size, its pixel data in one of Pillow's modes, and the
    keys of its [info] dictionary.  Band values are 8-bit, kept in [Z]. *)

Module PIL.

Definition rgb : Type := Z * Z * Z.

Definition white : rgb := (255, 255, 255).

(** Modes whose pixel layout the converter never looks into; an image in
    one of them carries what [convert("RGB")] yields for it. *)
Inductive other_mode : Type :=
| Bilevel | CMYK | YCbCr | LAB | HSV | I32 | F32 | I16 | PA | RGBa | La | RGBX.

Inductive bands : Type :=
| L (px : list Z)
| LA (px : list (Z * Z))
| P (palette : list rgb) (px : list Z)
| RGB (px : list rgb)
| RGBA (px : list (rgb * Z))
| Other (m : other_mode) (as_rgb : list rgb).

Record Image : Type := mkImage {
  size : Z * Z;
  data : bands;
  info : list string
}.

Definition other_mode_name (m : other_mode) : string :=
  match m with
  | Bilevel => "1" | CMYK => "CMYK" | YCbCr => "YCbCr" | LAB => "LAB"
  | HSV => "HSV" | I32 => "I" | F32 => "F" | I16 => "I;16" | PA => "PA"
  | RGBa => "RGBa" | La => "La" | RGBX => "RGBX"
  end.

(** [im.mode] *)
Definition mode (im : Image) : string :=
  match data im with
  | L _ => "L" | LA _ => "LA" | P _ _ => "P" | RGB _ => "RGB"
  | RGBA _ => "RGBA" | Other m _ => other_mode_name m
  end.

(** [key in im.info] *)
Definition info_has (key : string) (im : Image) : bool :=
  existsb (String.eqb key) (info im).

(** Pixel data of [im.convert("RGB")]: grey levels are replicated, an
    alpha band is dropped, palette indices are looked up (an index past
    the palette reads black). *)
Definition to_rgb (d : bands) : list rgb :=
  match d with
  | L px => map (fun l => (l, l, l)) px
  | LA px => map (fun la => (fst la, fst la, fst la)) px
  | P pal px => map (fun i => nth (Z.to_nat i) pal (0, 0, 0)) px
  | RGB px => px
  | RGBA px => map fst px
  | Other _ px => px
  end.

(** [im.convert("RGB")] *)
Definition convert_RGB (im : Image) : Image :=
  {| size := size im; data := RGB (to_rgb (data im)); info := info im |}.

(** [Image.new("RGB", size, color)] *)
Definition new_RGB (sz : Z * Z) (color : rgb) : Image :=
  {| size := sz;
     data := RGB (repeat color (Z.to_nat (fst sz * snd sz)));
     info := [] |}.

(** [im.split()]: one ["L"] image per band. *)
Definition split (im : Image) : list Image :=
  let band (px : list Z) := {| size := size im; data := L px; info := [] |} in
  match data im with
  | L px => [band px]
  | LA px => [band (map fst px); band (map snd px)]
  | P _ px => [band px]
  | RGB px =>
      [band (map (fun c => fst (fst c)) px); band (map (fun c => snd (fst c)) px);
       band (map snd px)]
  | RGBA px =>
      [band (map (fun c => fst (fst (fst c))) px);
       band (map (fun c => snd (fst (fst c))) px);
       band (map (fun c => snd (fst c)) px);
       band (map snd px)]
  | Other _ _ => []
  end.

(** The mixing of one band value under an 8-bit mask value [a]
    (the [BLEND] macro of the paste routine): [o] is the value already
    there, [i] the pasted one. *)
Definition blend8 (a o i : Z) : Z :=
  let t := o * (255 - a) + i * a + 128 in
  Z.shiftr (Z.shiftr t 8 + t) 8.

Definition blend_rgb (a : Z) (o i : rgb) : rgb :=
  let '(r0, g0, b0) := o in
  let '(r1, g1, b1) := i in
  (blend8 a r0 r1, blend8 a g0 g1, blend8 a b0 b1).

(** Values of a one-band mask image. *)
Definition mask_values (m : Image) : list Z :=
  match data m with
  | L px => px
  | _ => []
  end.

(** [bg.paste(im)] and [bg.paste(im, mask=m)] for an ["RGB"] image [bg]
    and an image [im] of the same size, pasted at the origin.  Without a
    mask every pixel of the region is overwritten with the pasted image's
    colour (its alpha band, if any, plays no part).  With a mask, each
    pixel is mixed according to the mask value at that pixel. *)
Definition paste (bg im : Image) (mask : option Image) : Image :=
  let old := to_rgb (data bg) in
  let src := to_rgb (data im) in
  let px :=
    match mask with
    | None => zip_with (fun _ s => s) old src
    | Some m =>
        zip_with (fun os a => blend_rgb a (fst os) (snd os))
                 (zip_with pair old src) (mask_values m)
    end in
  {| size := size bg; data := RGB px; info := info bg |}.

(** Modes every release of the PDF writer accepts as a page frame. *)
Definition pdf_encodable (im : Image) : bool :=
  existsb (String.eqb (mode im)) ["1"; "L"; "P"; "RGB"; "CMYK"]%string.

End PIL.

(** ** Exceptions and the file system *)

(** The exception classes that can leave the three functions. *)
Inductive exn : Type :=
| FileNotFoundError
| NotADirectoryError
| IsADirectoryError
| FileExistsError
| RuntimeError
| IndexError
| ValueError
| UnidentifiedImageError
| PDFInfoNotInstalledError
| PDFPageCountError.

#[global] Instance exn_eq_dec : EqDecision exn.
Proof. solve_decision. Defined.

(** The "NotFound" class of the specification is [FileNotFoundError]; none
    of the other classes above derives from it. *)
Definition is_not_found (e : exn) : bool :=
  match e with
  | FileNotFoundError => true
  | _ => false
  end.

Inductive outcome (A : Type) : Type :=
| Ok (a : A)
| Raise (e : exn).
Arguments Ok {A} a.
Arguments Raise {A} e.

(** An absolute path, as the list of its components below the root.  The
    root is the empty list. *)
Abbreviation path := (list string).

(** [os.path.join(d, name)] for an absolute [d] and a plain name (no
    separator), which is what [os.listdir] returns and what the page names
    are. *)
Definition join (d : path) (name : string) : path := (d ++ [name])%list.

(** [os.path.dirname(p)] of an absolute path; the root is its own parent. *)
Definition dirname (p : path) : path := removelast p.

Inductive image_format : Type := PNG | JPEG | BMP | GIF | TIFF.

(** A page of a PDF: its frame (the picture it shows) and its resolution
    tag. *)
Record PdfPage : Type := mkPage {
  frame : PIL.Image;
  resolution : Z
}.

(** What a regular file holds: an image file [ImageFile fmt im] decodes to
    [im]; a PDF is the list of its pages; [Blob] is anything else. *)
Inductive content : Type :=
| ImageFile (fmt : image_format) (im : PIL.Image)
| PdfFile (pages : list PdfPage)
| Blob.

Inductive node : Type :=
| File (c : content)
| Dir.

(** The file system: the nodes below the root, by absolute path. *)
Abbreviation FS := (gmap path node).

(** The node at a path; the root is always a directory. *)
Definition node_at (fs : FS) (p : path) : option node :=
  match p with
  | [] => Some Dir
  | _ => fs !! p
  end.

(** What the interpreter and its installed packages provide. *)
Class Host : Type := {
  (** [os.path.abspath]: resolves a path string against the current
      directory; relative and absolute spellings of a file resolve to the
      same absolute path, which is also where the operating system finds
      the file when given the string. *)
  abspath : string -> path;
  (** whether [from pdf2image import convert_from_path] succeeded *)
  pdf2image_installed : bool;
  (** whether the Poppler tools are found, given [poppler_path] *)
  poppler_found : option string -> bool;
  (** the rasterizer, page by page: size and RGB pixels of the rendering *)
  rasterize : PdfPage -> (Z * Z) * list PIL.rgb
}.

(** ** The monad of file-system programs *)

Definition M (A : Type) : Type := FS -> outcome A * FS.

Definition ret {A} (a : A) : M A := fun fs => (Ok a, fs).

Definition raise {A} (e : exn) : M A := fun fs => (Raise e, fs).

Definition bind {A B} (c : M A) (k : A -> M B) : M B :=
  fun fs =>
    match c fs with
    | (Ok a, fs') => k a fs'
    | (Raise e, fs') => (Raise e, fs')
    end.

Notation "x <- c ;; k" := (bind c (fun x => k))
  (at level 100, c at next level, right associativity).
Notation "c ;; k" := (bind c (fun _ => k))
  (at level 100, right associativity).

(** [for x in xs: s = body(x, s)]: a loop over a list that carries the
    variables it updates. *)
Fixpoint for_each {A S} (xs : list A) (body : A -> S -> M S) (s : S) : M S :=
  match xs with
  | [] => ret s
  | x :: xs' => s' <- body x s ;; for_each xs' body s'
  end.

(** *** File-system primitives *)

Module OS.

(** [os.path.isfile(p)] *)
Definition isfile (p : path) : M bool := fun fs =>
  (Ok match node_at fs p with Some (File _) => true | _ => false end, fs).

(** [os.path.isdir(p)] *)
Definition isdir (p : path) : M bool := fun fs =>
  (Ok match node_at fs p with Some Dir => true | _ => false end, fs).

(** [Some n] when [k] is the child named [n] of directory [d]. *)
Fixpoint child_name (d k : path) : option string :=
  match d, k with
  | [], [n] => Some n
  | x :: d', y :: k' => if String.eqb x y then child_name d' k' else None
  | _, _ => None
  end.

(** The names of the nodes directly below [d], in the order the file
    system enumerates them. *)
Definition entries (fs : FS) (d : path) : list string :=
  omap (child_name d) (map fst (map_to_list fs)).

(** [os.listdir(p)] *)
Definition listdir (p : path) : M (list string) := fun fs =>
  match node_at fs p with
  | Some Dir => (Ok (entries fs p), fs)
  | Some (File _) => (Raise NotADirectoryError, fs)
  | None => (Raise FileNotFoundError, fs)
  end.

(** The walk of [os.makedirs(p, exist_ok=True)] from the directory [pre]
    down the remaining components: an existing directory is kept, a
    missing one is created, a regular file in the way is an error. *)
Fixpoint makedirs_from (pre : path) (rest : list string) : M unit :=
  match rest with
  | [] => ret tt
  | n :: rest' =>
      let p := join pre n in
      fun fs =>
        match node_at fs p with
        | Some Dir => makedirs_from p rest' fs
        | Some (File _) =>
            (Raise match rest' with
                   | [] => FileExistsError
                   | _ => NotADirectoryError
                   end, fs)
        | None => makedirs_from p rest' (<[p := Dir]> fs)
        end
  end.

(** [os.makedirs(p, exist_ok=True)] *)
Definition makedirs (p : path) : M unit := makedirs_from [] p.

(** Create or overwrite the regular file at [p]. *)
Definition write_file (p : path) (c : content) : M unit := fun fs =>
  match p with
  | [] => (Raise IsADirectoryError, fs)
  | _ =>
      match node_at fs (dirname p) with
      | None => (Raise FileNotFoundError, fs)
      | Some (File _) => (Raise NotADirectoryError, fs)
      | Some Dir =>
          match fs !! p with
          | Some Dir => (Raise IsADirectoryError, fs)
          | _ => (Ok tt, <[p := File c]> fs)
          end
      end
  end.

End OS.

(** *** Library calls that touch the file system *)

(** [Image.open(p)] together with the load that the first pixel access
    forces (both happen inside one turn of the normalization loop). *)
Definition Image_open (p : path) : M PIL.Image := fun fs =>
  match node_at fs p with
  | None => (Raise FileNotFoundError, fs)
  | Some Dir => (Raise IsADirectoryError, fs)
  | Some (File (ImageFile _ im)) => (Ok im, fs)
  | Some (File _) => (Raise UnidentifiedImageError, fs)
  end.

(** [page.save(p, "PNG")] *)
Definition save_png (page : PIL.Image) (p : path) : M unit :=
  OS.write_file p (ImageFile PNG page).

(** [first.save(p, "PDF", resolution=r, save_all=True, append_images=rest)]:
    one page per frame, [first] then [rest] in order. *)
Definition save_pdf (first : PIL.Image) (p : path) (r : Z)
    (rest : list PIL.Image) : M unit :=
  if forallb PIL.pdf_encodable (first :: rest)
  then OS.write_file p (PdfFile (map (fun im => mkPage im r) (first :: rest)))
  else raise ValueError.

(** The image the rasterizer hands back for one page: mode ["RGB"]. *)
Definition rendered `{Host} (pg : PdfPage) : PIL.Image :=
  PIL.mkImage (fst (rasterize pg)) (PIL.RGB (snd (rasterize pg))) [].

(** [convert_from_path(pdf_path=p, poppler_path=pp)]: the pages of the
    document, rendered, in page order. *)
Definition convert_from_path `{Host} (p : path) (pp : option string)
    : M (list PIL.Image) := fun fs =>
  if negb (poppler_found pp) then (Raise PDFInfoNotInstalledError, fs)
  else
    match node_at fs p with
    | Some (File (PdfFile pages)) => (Ok (map rendered pages), fs)
    | _ => (Raise PDFPageCountError, fs)
    end.

(** ** The three conversion functions *)

Section Converter.

Context `{Host}.

Definition convert_pdf_to_images (pdf_path : string)
    (poppler_path : option string) (output_dir : string) : M Z :=
  let pdf_path := abspath pdf_path in
  let output_dir := abspath output_dir in
  is_file <- OS.isfile pdf_path ;;
  if negb is_file then raise FileNotFoundError else
  is_dir <- OS.isdir output_dir ;;
  (if negb is_dir then OS.makedirs output_dir else ret tt) ;;
  if negb pdf2image_installed then raise RuntimeError else
  pages <- convert_from_path pdf_path poppler_path ;;
  counter <- for_each pages (fun page counter =>
               let img_name := "page_" +:+ pretty counter +:+ ".png" in
               save_png page (join output_dir img_name) ;;
               ret (counter + 1)) 1 ;;
  ret (counter - 1).

(** The filter of line 58. *)
Definition select (entries exts : list string) : list string :=
  List.filter (fun f => PyStr.endswith_any (PyStr.lower f) exts) entries.

(** Both combiners below follow the source statement by statement.  The
    output path is absolute, so [output_dir] is never the empty string and
    the test [output_dir and ...] of lines 80 and 107 reduces to its second
    half.  In the ["RGBA"] branch the image has four bands, so
    [im.split()[3]] is its alpha band. *)
Definition images_to_pdf (images_dir output_pdf : string)
    (exts : list string) : M path :=
  let images_dir := abspath images_dir in
  is_dir <- OS.isdir images_dir ;;
  if negb is_dir then raise FileNotFoundError else
  entries <- OS.listdir images_dir ;;
  let files := select entries exts in
  match files with
  | [] => raise FileNotFoundError
  | _ =>
      let files := PyStr.sort files in
      imgs <- for_each files (fun fname imgs =>
        let path := join images_dir fname in
        im <- Image_open path ;;
        let im :=
          if existsb (String.eqb (PIL.mode im)) ["RGBA"; "LA"]
             || ((PIL.mode im =? "P")%string && PIL.info_has "transparency" im)
          then
            let bg := PIL.new_RGB (PIL.size im) (255, 255, 255) in
            if (PIL.mode im =? "RGBA")%string
            then PIL.paste bg im (Some (nth 3 (PIL.split im) bg))
            else PIL.paste bg im None
          else PIL.convert_RGB im in
        ret (imgs ++ [im])%list) [] ;;
      let output_pdf := abspath output_pdf in
      let output_dir := dirname output_pdf in
      is_dir <- OS.isdir output_dir ;;
      (if negb is_dir then OS.makedirs output_dir else ret tt) ;;
      match imgs with
      | [] => raise IndexError
      | first :: rest =>
          save_pdf first output_pdf 100 rest ;;
          ret output_pdf
      end
  end.

Definition images_to_pdf_from_files (file_paths : list string)
    (output_pdf : string) : M path :=
  match file_paths with
  | [] => raise FileNotFoundError
  | _ =>
      imgs <- for_each file_paths (fun path imgs =>
        im <- Image_open (abspath path) ;;
        let im :=
          if existsb (String.eqb (PIL.mode im)) ["RGBA"; "LA"]
             || ((PIL.mode im =? "P")%string && PIL.info_has "transparency" im)
          then
            let bg := PIL.new_RGB (PIL.size im) (255, 255, 255) in
            if (PIL.mode im =? "RGBA")%string
            then PIL.paste bg im (Some (nth 3 (PIL.split im) bg))
            else PIL.paste bg im None
          else PIL.convert_RGB im in
        ret (imgs ++ [im])%list) [] ;;
      let output_pdf := abspath output_pdf in
      let output_dir := dirname output_pdf in
      is_dir <- OS.isdir output_dir ;;
      (if negb is_dir then OS.makedirs output_dir else ret tt) ;;
      match imgs with
      | [] => raise IndexError
      | first :: rest =>
          save_pdf first output_pdf 100 rest ;;
          ret output_pdf
      end
  end.

End Converter.

(** ** The handlers of the "Images -> PDF" and "PDF -> Images" tabs

    The entry widgets are their text; a handler either refuses the request
    with the text of the error dialog, or starts a job.  The job is the
    body of the worker's [try] block; the thread it runs on, the status
    line, the dialogs and the opening of the output folder are left out. *)

Inductive handler_result (A : Type) : Type :=
| Refused (message : string)
| Started (job : M A).
Arguments Refused {A} message.
Arguments Started {A} job.

(** [browse_images_files], lines 213-219: the picked files replace the
    entry, joined by semicolons; a cancelled dialog leaves it alone. *)
Definition browse_images_files (picked : list string) (input_entry : string)
    : string :=
  match picked with
  | [] => input_entry
  | _ => PyStr.join ";" picked
  end.

Section Handlers.

Context `{Host}.

(** The worker of [start_pdf_to_images], line 247. *)
Definition pdf_to_images_worker (pdf : string) (poppler : option string)
    (out : string) : M Z :=
  convert_pdf_to_images pdf poppler out.

(** [start_pdf_to_images], lines 229-259. *)
Definition start_pdf_to_images (pdf_entry poppler_entry out_folder_entry : string)
    : handler_result Z :=
  let pdf := PyStr.strip pdf_entry in
  let poppler :=
    match PyStr.strip poppler_entry with
    | EmptyString => None
    | p => Some p
    end in
  let out := PyStr.strip out_folder_entry in
  if (pdf =? EmptyString)%string then Refused "Please select a PDF file."
  else if (out =? EmptyString)%string then Refused "Please select an output folder."
  else Started (pdf_to_images_worker pdf poppler out).

(** The worker of [start_images_to_pdf], lines 278-285. *)
Definition images_to_pdf_worker (inp out : string) : M path :=
  is_dir <- OS.isdir (abspath inp) ;;
  if is_dir then images_to_pdf inp out [".png"; ".jpg"; ".jpeg"]
  else
    let files :=
      List.filter (fun p => negb (p =? EmptyString)%string) (PyStr.split ";" inp) in
    files <- for_each files (fun f kept =>
               is_file <- OS.isfile (abspath f) ;;
               ret (if is_file then (kept ++ [f])%list else kept)) [] ;;
    match files with
    | [] => raise FileNotFoundError
    | _ => images_to_pdf_from_files files out
    end.

(** [start_images_to_pdf], lines 261-298. *)
Definition start_images_to_pdf (input_entry output_pdf_entry : string)
    : handler_result path :=
  let inp := PyStr.strip input_entry in
  let out := PyStr.strip output_pdf_entry in
  if (inp =? EmptyString)%string
  then Refused "Please select an input folder or files."
  else if (out =? EmptyString)%string
  then Refused "Please select an output PDF path."
  else Started (images_to_pdf_worker inp out).

End Handlers.

(** ** A POSIX host

    A concrete [Host] on which the functions can be run: paths are split at
    ["/"], empty and ["."] components are dropped, [".."] steps up, and a
    relative path is taken from the current directory [cwd]. *)

Module Posix.

(** Components of [s] between slashes; [cur] collects the current one in
    reverse. *)
Fixpoint split_slash (s : string) (cur : string) : list string :=
  match s with
  | EmptyString => [String.rev cur]
  | String c s' =>
      if Ascii.eqb c "/"%char
      then String.rev cur :: split_slash s' EmptyString
      else split_slash s' (String c cur)
  end.

(** [normpath] on components, onto the stack [acc] of the directories
    entered so far (innermost first). *)
Fixpoint norm (comps : list string) (acc : list string) : path :=
  match comps with
  | [] => rev acc
  | c :: comps' =>
      if (c =? EmptyString)%string || (c =? ".")%string then norm comps' acc
      else if (c =? "..")%string then norm comps' (tl acc)
      else norm comps' (c :: acc)
  end.

Definition is_abs (s : string) : bool :=
  match s with
  | String c _ => Ascii.eqb c "/"%char
  | EmptyString => false
  end.

Definition posix_abspath (cwd : path) (s : string) : path :=
  norm (split_slash s EmptyString) (if is_abs s then [] else rev cwd).

(** A host with every dependency installed, whose rasterizer renders a
    page as the RGB conversion of its frame. *)
Definition host (cwd : path) : Host := {|
  abspath := posix_abspath cwd;
  pdf2image_installed := true;
  poppler_found := fun _ => true;
  rasterize := fun pg =>
    (PIL.size (frame pg), PIL.to_rgb (PIL.data (frame pg)))
|}.

End Posix.

(** ** Auxiliary definitions for the statements *)

(** The normalization both loops apply to a decoded image (lines 67-75 of
    [images_to_pdf], lines 94-102 of [images_to_pdf_from_files]; the two
    blocks are the same statements), as a function. *)
Definition normalize (im : PIL.Image) : PIL.Image :=
  if existsb (String.eqb (PIL.mode im)) ["RGBA"; "LA"]
     || ((PIL.mode im =? "P")%string && PIL.info_has "transparency" im)
  then
    let bg := PIL.new_RGB (PIL.size im) (255, 255, 255) in
    if (PIL.mode im =? "RGBA")%string
    then PIL.paste bg im (Some (nth 3 (PIL.split im) bg))
    else PIL.paste bg im None
  else PIL.convert_RGB im.

(** Decoding a list of files against a file system, stopping at the first
    failure: what the normalization loops compute before they normalize. *)
Fixpoint open_all (fs : FS) (ps : list path) : outcome (list PIL.Image) :=
  match ps with
  | [] => Ok []
  | p :: ps' =>
      match fst (Image_open p fs) with
      | Raise e => Raise e
      | Ok im =>
          match open_all fs ps' with
          | Raise e => Raise e
          | Ok ims => Ok (im :: ims)
          end
      end
  end.

(** The guard-and-create step of lines 39-40, 80-81 and 107-108. *)
Definition ensure_dir (d : path) : M unit :=
  is_dir <- OS.isdir d ;;
  (if negb is_dir then OS.makedirs d else ret tt).

(** The common tail of both combiners (lines 78-85 and 105-112), run on the
    frames collected by the loop. *)
Definition emit `{Host} (output_pdf : string) (imgs : list PIL.Image) : M path :=
  let output_pdf := abspath output_pdf in
  let output_dir := dirname output_pdf in
  ensure_dir output_dir ;;
  match imgs with
  | [] => raise IndexError
  | first :: rest =>
      save_pdf first output_pdf 100 rest ;;
      ret output_pdf
  end.

Definition is_regular (o : option node) : bool :=
  match o with
  | Some (File _) => true
  | _ => false
  end.

Definition is_directory (o : option node) : bool :=
  match o with
  | Some Dir => true
  | _ => false
  end.

(** No regular file sits at [d] or at one of its ancestors, so that
    [os.makedirs(d, exist_ok=True)] has nothing in its way. *)
Definition creatable (fs : FS) (d : path) : bool :=
  forallb (fun k => negb (is_regular (node_at fs (take k d))))
          (seq 0 (S (length d))).

(** The directory [d] is there already, or can be made. *)
Definition dir_ready (fs : FS) (d : path) : bool :=
  is_directory (node_at fs d) || creatable fs d.

(** A regular file can be created or overwritten at [p] once its parent
    directory is in place. *)
Definition writable (fs : FS) (p : path) : bool :=
  dir_ready fs (dirname p) && negb (is_directory (node_at fs p)).

(** The name of the [n]-th page image (line 47). *)
Definition page_name (n : Z) : string := "page_" +:+ pretty n +:+ ".png".

(** Where the pages numbered [c], [c+1], ..., [c+k-1] go in [output_dir]. *)
Definition page_paths (output_dir : path) (c : Z) (k : nat) : list path :=
  map (fun i => join output_dir (page_name (c + Z.of_nat i))) (seq 0 k).

(** None of the paths is taken by a directory. *)
Definition no_directory_at (fs : FS) (ps : list path) : bool :=
  forallb (fun p => negb (is_directory (node_at fs p))) ps.

(** The case-insensitive suffix match of the specification: neither the
    case of the file name nor that of the extension matters. *)
Definition matches_ci (name ext : string) : bool :=
  PyStr.endswith (PyStr.lower name) (PyStr.lower ext).

(** The selection the specification describes. *)
Definition select_ci (entries exts : list string) : list string :=
  List.filter (fun f => existsb (matches_ci f) exts) entries.

(** What the specification asks of an image with transparency: each pixel
    mixed with white according to its own alpha value (a palette pixel is
    fully transparent at the marked index [t] and opaque elsewhere). *)
Definition composited_over_white (t : Z) (d : PIL.bands) : list PIL.rgb :=
  match d with
  | PIL.RGBA px => map (fun ca => PIL.blend_rgb (snd ca) PIL.white (fst ca)) px
  | PIL.LA px =>
      map (fun la => PIL.blend_rgb (snd la) PIL.white (fst la, fst la, fst la)) px
  | PIL.P pal px =>
      map (fun i => if (i =? t)%Z then PIL.white
                    else nth (Z.to_nat i) pal (0, 0, 0)%Z) px
  | other => PIL.to_rgb other
  end.

(** A program keeps the nodes selected by [P]: whatever it returns, a node
    that was there at a path satisfying [P] is still there, unchanged. *)
Definition keeps {A} (P : path -> Prop) (c : M A) : Prop :=
  forall (fs : FS) q, P q -> is_Some (fs !! q) -> snd (c fs) !! q = fs !! q.

(** Band values are bytes. *)
Definition byte_ok (v : Z) : bool := (0 <=? v)%Z && (v <=? 255)%Z.

Definition rgb_ok (c : PIL.rgb) : bool :=
  byte_ok (fst (fst c)) && byte_ok (snd (fst c)) && byte_ok (snd c).

(** Every band value of the pixel data, and every palette entry, is a
    byte. *)
Definition bands_ok (d : PIL.bands) : bool :=
  match d with
  | PIL.L px => forallb byte_ok px
  | PIL.LA px => forallb (fun la => byte_ok (fst la) && byte_ok (snd la)) px
  | PIL.P pal px => forallb rgb_ok pal
  | PIL.RGB px => forallb rgb_ok px
  | PIL.RGBA px => forallb (fun ca => rgb_ok (fst ca) && byte_ok (snd ca)) px
  | PIL.Other _ px => forallb rgb_ok px
  end.

(** The name directly below [d] on the way to [p], when [p] lies below
    [d]. *)
Fixpoint component_below (d p : path) : option string :=
  match d, p with
  | [], n :: _ => Some n
  | x :: d', y :: p' => if String.eqb x y then component_below d' p' else None
  | _, _ => None
  end.

(** The output path [p] neither is nor lies below an entry of the input
    directory [d] that the selection would pick. *)
Definition output_apart (d p : path) (exts : list string) : bool :=
  match component_below d p with
  | Some n => negb (PyStr.endswith_any (PyStr.lower n) exts)
  | None => true
  end.

(** A program adds nodes only at paths selected by [P]: whatever it
    returns, a path that held nothing before and holds something afterwards
    satisfies [P]. *)
Definition adds_only {A} (P : path -> Prop) (c : M A) : Prop :=
  forall (fs : FS) q, fs !! q = None -> is_Some (snd (c fs) !! q) -> P q.

(** ** Sample inputs *)

Module Example.

(** The host runs in [/home/u]. *)
Definition host0 : Host := Posix.host ["home"; "u"].

Definition photo : PIL.Image :=
  PIL.mkImage (2, 1) (PIL.RGB [(10, 20, 30); (40, 50, 60)]) [].

(** One fully transparent pixel in mode ["RGBA"]. *)
Definition logo : PIL.Image :=
  PIL.mkImage (1, 1) (PIL.RGBA [((10, 20, 30), 0)]) [].

(** One fully transparent black pixel in mode ["LA"]. *)
Definition ghost : PIL.Image :=
  PIL.mkImage (1, 1) (PIL.LA [(0, 0)]) [].

(** A palette image whose only pixel has index 0, a red palette entry
    that the file marks as transparent. *)
Definition sticker : PIL.Image :=
  PIL.mkImage (1, 1) (PIL.P [(200, 0, 0)] [0]) ["transparency"].

(** [/home/u/pics] holds two images and a text file; [/home/u/doc.pdf]
    has three pages. *)
Definition fs0 : FS :=
  list_to_map
    [ (["home"], Dir);
      (["home"; "u"], Dir);
      (["home"; "u"; "pics"], Dir);
      (["home"; "u"; "pics"; "b.PNG"], File (ImageFile PNG logo));
      (["home"; "u"; "pics"; "a.jpg"], File (ImageFile JPEG photo));
      (["home"; "u"; "pics"; "notes.txt"], File Blob);
      (["home"; "u"; "doc.pdf"],
       File (PdfFile [mkPage photo 72; mkPage logo 72; mkPage ghost 72])) ].

(** As [fs0], with a directory [scans.png] and a text file renamed to
    [z.png] inside [pics]. *)
Definition fs1 : FS :=
  <[ ["home"; "u"; "pics"; "scans.png"] := Dir ]>
    (<[ ["home"; "u"; "pics"; "z.png"] := File Blob ]> fs0).

(** As [fs0], with an undecodable [c.png] inside [pics]. *)
Definition fs2 : FS :=
  <[ ["home"; "u"; "pics"; "c.png"] := File Blob ]> fs0.

Definition exts0 : list string := [".png"; ".jpg"; ".jpeg"].

(** The same host without the [pdf2image] package. *)
Definition host_bare : Host := {|
  abspath := Posix.posix_abspath ["home"; "u"];
  pdf2image_installed := false;
  poppler_found := fun _ => true;
  rasterize := fun pg =>
    (PIL.size (frame pg), PIL.to_rgb (PIL.data (frame pg)))
|}.

(** As [fs0], with a directory in [/home/u/pages] that has the name of
    the second page file. *)
Definition fs3 : FS :=
  <[ ["home"; "u"; "pages"; "page_2.png"] := Dir ]>
    (<[ ["home"; "u"; "pages"] := Dir ]> fs0).

End Example.

(** ** Properties *)

Local Open Scope list_scope.

(** *** The monad and the loops *)

Lemma bind_ok {A B} (c : M A) (k : A -> M B) fs a fs' :
  c fs = (Ok a, fs') -> bind c k fs = k a fs'.
Proof. intros E. unfold bind. now rewrite E. Qed.

Lemma bind_raise {A B} (c : M A) (k : A -> M B) fs e fs' :
  c fs = (Raise e, fs') -> bind c k fs = (Raise e, fs').
Proof. intros E. unfold bind. now rewrite E. Qed.

Lemma Image_open_pure p fs : snd (Image_open p fs) = fs.
Proof.
  unfold Image_open.
  destruct (node_at fs p) as [[[ | | ]| ]| ]; reflexivity.
Qed.

Lemma Image_open_eta p fs : Image_open p fs = (fst (Image_open p fs), fs).
Proof. rewrite <- (Image_open_pure p fs) at 3. now destruct (Image_open p fs). Qed.

(** The normalization loop decodes the files in order, reads only, and
    stops at the first file that does not decode. *)
Lemma load_loop {A} (loc : A -> path) (xs : list A) (acc : list PIL.Image) fs :
  for_each xs (fun x imgs =>
                 im <- Image_open (loc x) ;;
                 ret (imgs ++ [normalize im])%list) acc fs
  = (match open_all fs (map loc xs) with
     | Ok ims => Ok (acc ++ map normalize ims)%list
     | Raise e => Raise e
     end, fs).
Proof.
  revert acc. induction xs as [|x xs IH]; intros acc; simpl.
  - now rewrite app_nil_r.
  - unfold bind at 1. unfold bind at 1.
    rewrite (Image_open_eta (loc x) fs). simpl.
    destruct (fst (Image_open (loc x) fs)) as [im|e]; simpl; [|reflexivity].
    rewrite IH. destruct (open_all fs (map loc xs)); [|reflexivity].
    simpl. now rewrite <- app_assoc.
Qed.

Lemma isdir_run d fs : OS.isdir d fs = (Ok (is_directory (node_at fs d)), fs).
Proof. reflexivity. Qed.

Lemma isfile_run p fs : OS.isfile p fs = (Ok (is_regular (node_at fs p)), fs).
Proof. reflexivity. Qed.

Lemma listdir_run d fs :
  is_directory (node_at fs d) = true ->
  OS.listdir d fs = (Ok (OS.entries fs d), fs).
Proof.
  unfold OS.listdir, is_directory.
  destruct (node_at fs d) as [[c| ]| ]; intros E; try discriminate; reflexivity.
Qed.

Section ConverterFacts.

Context `{Host}.

(** Directory mode, unfolded: the guards, then the decoding of the sorted
    selection, then the common tail. *)
Lemma images_to_pdf_unfold images_dir output_pdf exts fs :
  images_to_pdf images_dir output_pdf exts fs =
  if is_directory (node_at fs (abspath images_dir)) then
    match select (OS.entries fs (abspath images_dir)) exts with
    | [] => (Raise FileNotFoundError, fs)
    | files =>
        match open_all fs (map (join (abspath images_dir)) (PyStr.sort files)) with
        | Ok ims => emit output_pdf (map normalize ims) fs
        | Raise e => (Raise e, fs)
        end
    end
  else (Raise FileNotFoundError, fs).
Proof.
  unfold images_to_pdf.
  rewrite (bind_ok _ _ fs _ fs (isdir_run _ fs)).
  destruct (is_directory (node_at fs (abspath images_dir))) eqn:Edir;
    simpl; [|reflexivity].
  rewrite (bind_ok _ _ fs _ fs (listdir_run _ fs Edir)).
  destruct (select _ exts) as [|f files] eqn:Esel; [reflexivity|].
  unfold bind at 1.
  rewrite (load_loop (join (abspath images_dir))). cbv beta iota zeta.
  destruct (open_all fs _); reflexivity.
Qed.

(** File-list mode, unfolded likewise. *)
Lemma images_to_pdf_from_files_unfold file_paths output_pdf fs :
  images_to_pdf_from_files file_paths output_pdf fs =
  match file_paths with
  | [] => (Raise FileNotFoundError, fs)
  | _ =>
      match open_all fs (map abspath file_paths) with
      | Ok ims => emit output_pdf (map normalize ims) fs
      | Raise e => (Raise e, fs)
      end
  end.
Proof.
  unfold images_to_pdf_from_files.
  destruct file_paths as [|p ps]; [reflexivity|].
  unfold bind at 1.
  rewrite (load_loop abspath). cbv beta iota zeta.
  destruct (open_all fs _); reflexivity.
Qed.

End ConverterFacts.

(** *** The file system *)

Lemma node_at_nonempty (fs : FS) (pre : path) (x : string) (l : path) :
  node_at fs (pre ++ x :: l) = fs !! (pre ++ x :: l).
Proof. destruct pre; reflexivity. Qed.

Lemma dirname_join d name : dirname (join d name) = d.
Proof. apply removelast_last. Qed.

Lemma join_not_prefix d name : ¬ join d name `prefix_of` d.
Proof.
  intros [k E]. apply (f_equal length) in E.
  unfold join in E. rewrite !length_app in E. simpl in E. lia.
Qed.

(** [makedirs] succeeds when no regular file is in the way; afterwards
    every directory of the chain exists and nothing else has changed. *)
Lemma makedirs_from_ok rest : forall pre (fs : FS),
  (forall k, (1 <= k <= length rest)%nat ->
             is_regular (node_at fs (pre ++ take k rest)) = false) ->
  exists fs' : FS,
    OS.makedirs_from pre rest fs = (Ok tt, fs')
    /\ (forall k, (1 <= k <= length rest)%nat ->
                  fs' !! (pre ++ take k rest) = Some Dir)
    /\ (forall q, (forall k, (1 <= k <= length rest)%nat -> q <> pre ++ take k rest) ->
                  fs' !! q = fs !! q).
Proof.
  induction rest as [|n rest IH]; intros pre fs Hfree.
  - exists fs. split; [reflexivity|]. split; [simpl; lia|reflexivity].
  - assert (Hstep : forall k, pre ++ take (S k) (n :: rest)
                              = join pre n ++ take k rest).
    { intros k. unfold join. now rewrite <- app_assoc. }
    assert (Hne : forall k, (1 <= k <= length rest)%nat ->
                            join pre n <> join pre n ++ take k rest).
    { intros k Hk E. apply (f_equal length) in E.
      rewrite length_app, length_take in E. lia. }
    pose proof (Hfree 1%nat ltac:(simpl; lia)) as H1.
    rewrite Hstep, take_0, app_nil_r in H1.
    cbn [OS.makedirs_from].
    unfold join in *. rewrite node_at_nonempty in *.
    destruct (fs !! (pre ++ [n])) as [[c| ]| ] eqn:E; [discriminate| | ].
    + destruct (IH (pre ++ [n]) fs) as (fs' & Hrun & Hdirs & Hrest).
      { intros k Hk. rewrite <- Hstep. apply Hfree. simpl. lia. }
      exists fs'. split; [exact Hrun|]. split.
      * intros [|[|k]] Hk; [lia| |].
        -- rewrite Hstep, take_0, app_nil_r.
           rewrite Hrest; [exact E|]. intros k Hk'. now apply Hne.
        -- rewrite Hstep. apply Hdirs. simpl in Hk. lia.
      * intros q Hq. apply Hrest. intros k Hk. rewrite <- Hstep.
        apply Hq. simpl. lia.
    + destruct (IH (pre ++ [n]) (<[pre ++ [n] := Dir]> fs))
        as (fs' & Hrun & Hdirs & Hrest).
      { intros k Hk.
        destruct (take k rest) as [|t ts] eqn:Et.
        - destruct k; [lia|]. destruct rest; [simpl in Hk; lia|discriminate].
        - rewrite <- app_assoc. simpl. rewrite node_at_nonempty.
          rewrite lookup_insert_ne.
          + specialize (Hfree (S k) ltac:(simpl; lia)).
            rewrite Hstep, Et, <- app_assoc in Hfree. simpl in Hfree.
            now rewrite node_at_nonempty in Hfree.
          + intros Eq. apply (f_equal length) in Eq.
            rewrite !length_app in Eq. simpl in Eq. lia. }
      exists fs'. split; [exact Hrun|]. split.
      * intros [|[|k]] Hk; [lia| |].
        -- rewrite Hstep, take_0, app_nil_r.
           rewrite Hrest; [apply lookup_insert_eq|].
           intros k Hk'. now apply Hne.
        -- rewrite Hstep. apply Hdirs. simpl in Hk. lia.
      * intros q Hq. rewrite Hrest.
        -- apply lookup_insert_ne. specialize (Hq 1%nat ltac:(simpl; lia)).
           rewrite Hstep, take_0, app_nil_r in Hq. congruence.
        -- intros k Hk. rewrite <- Hstep. apply Hq. simpl. lia.
Qed.

Lemma creatable_spec (fs : FS) d k :
  creatable fs d = true -> (k <= length d)%nat ->
  is_regular (node_at fs (take k d)) = false.
Proof.
  unfold creatable. rewrite forallb_forall. intros Hall Hk.
  apply negb_true_iff, Hall, in_seq. lia.
Qed.

Lemma ensure_dir_ok (fs : FS) d :
  dir_ready fs d = true ->
  exists fs' : FS,
    ensure_dir d fs = (Ok tt, fs')
    /\ node_at fs' d = Some Dir
    /\ (forall q, ¬ q `prefix_of` d -> fs' !! q = fs !! q)
    /\ (forall q, is_Some (fs !! q) -> fs' !! q = fs !! q).
Proof.
  unfold dir_ready, ensure_dir. intros Hready.
  rewrite (bind_ok _ _ fs _ fs (isdir_run d fs)).
  destruct (is_directory (node_at fs d)) eqn:Edir; simpl.
  - exists fs. split; [reflexivity|]. split; [|split; reflexivity].
    unfold is_directory in Edir.
    destruct (node_at fs d) as [[c| ]| ]; congruence.
  - simpl in Hready.
    destruct (makedirs_from_ok d [] fs) as (fs' & Hrun & Hdirs & Hrest).
    { intros k Hk. simpl. apply creatable_spec; [assumption|lia]. }
    simpl in Hdirs, Hrest.
    exists fs'. split; [exact Hrun|]. split; [|split].
    + destruct d as [|x d]; [reflexivity|].
      change (node_at fs' (x :: d)) with (fs' !! (x :: d)).
      rewrite <- (firstn_all (x :: d)) at 1. apply Hdirs. simpl. lia.
    + intros q Hq. apply Hrest. intros k Hk ->. apply Hq.
      exists (drop k d). symmetry. apply take_drop.
    + intros q Hsome.
      destruct (decide (q `prefix_of` d)) as [[r ->]|Hno].
      * destruct q as [|t ts].
        { apply Hrest. intros k Hk E. apply (f_equal length) in E.
          rewrite length_take in E. simpl in E, Hk. lia. }
        pose proof (take_app_length (t :: ts) r) as Et.
        rewrite <- Et at 1. rewrite Hdirs by (rewrite length_app; simpl; lia).
        pose proof (creatable_spec fs _ (length (t :: ts)) Hready
                      ltac:(rewrite length_app; lia)) as Hreg.
        rewrite Et in Hreg.
        change (node_at fs (t :: ts)) with (fs !! (t :: ts)) in Hreg.
        destruct Hsome as [[c| ] Hx]; rewrite Hx in Hreg |- *;
          [simpl in Hreg; discriminate|reflexivity].
      * apply Hrest. intros k Hk ->. apply Hno.
        exists (drop k d). symmetry. apply take_drop.
Qed.

Lemma write_file_ok (fs : FS) p c :
  node_at fs (dirname p) = Some Dir ->
  is_directory (node_at fs p) = false ->
  OS.write_file p c fs = (Ok tt, <[p := File c]> fs).
Proof.
  intros Hparent Hnot. unfold OS.write_file.
  destruct p as [|x p]; [discriminate|].
  rewrite Hparent.
  change (node_at fs (x :: p)) with (fs !! (x :: p)) in Hnot.
  destruct (fs !! (x :: p)) as [[c'| ]| ]; [reflexivity|discriminate|reflexivity].
Qed.

(** *** Sorting, decoding, normalizing *)

Lemma sort_sorted l : Sorted PyStr.le (PyStr.sort l).
Proof. unfold PyStr.sort, PyStr.le. apply (Sorted_merge_sort String.le). Qed.

Lemma sort_perm l : PyStr.sort l ≡ₚ l.
Proof. apply merge_sort_Permutation. Qed.

Lemma sort_nil_iff l : PyStr.sort l = [] <-> l = [].
Proof.
  split; intros E.
  - apply Permutation_nil_r. rewrite <- E. symmetry. apply sort_perm.
  - now subst.
Qed.

Lemma open_all_length fs ps ims :
  open_all fs ps = Ok ims -> length ims = length ps.
Proof.
  revert ims. induction ps as [|p ps IH]; intros ims; simpl.
  - intros [= <-]. reflexivity.
  - destruct (fst (Image_open p fs)); [|discriminate].
    destruct (open_all fs ps); [|discriminate].
    intros [= <-]. simpl. f_equal. now apply IH.
Qed.

(** Position by position, [open_all] returns what each file decodes to. *)
Lemma open_all_lookup fs ps ims i p :
  open_all fs ps = Ok ims -> ps !! i = Some p ->
  exists im, ims !! i = Some im /\ Image_open p fs = (Ok im, fs).
Proof.
  revert ims i. induction ps as [|p0 ps IH]; intros ims i; simpl; [easy|].
  destruct (fst (Image_open p0 fs)) as [im0|] eqn:E0; [|discriminate].
  destruct (open_all fs ps) as [ims0|]; [|discriminate].
  intros [= <-]. destruct i as [|i]; simpl.
  - intros [= <-]. exists im0. split; [reflexivity|].
    rewrite Image_open_eta. now rewrite E0.
  - intros Hp. now apply IH.
Qed.

(** A failing file makes the whole decoding fail. *)
Lemma open_all_raise fs ps p e :
  p ∈ ps -> fst (Image_open p fs) = Raise e ->
  exists e', open_all fs ps = Raise e'.
Proof.
  intros Hin Hp. induction Hin as [p ps|p p0 ps Hin IH]; simpl.
  - rewrite Hp. eauto.
  - destruct (fst (Image_open p0 fs)); [|eauto].
    destruct (IH Hp) as [e' ->]. eauto.
Qed.

(** Whatever its input, the normalized image is in mode ["RGB"]: three
    colour bands and no alpha band. *)
Lemma normalize_mode im : PIL.mode (normalize im) = "RGB".
Proof.
  unfold normalize.
  destruct (_ || _); [destruct (_ =? _)%string|]; reflexivity.
Qed.

Lemma normalize_encodable ims :
  forallb PIL.pdf_encodable (map normalize ims) = true.
Proof.
  apply forallb_forall. intros im' Hin. apply in_map_iff in Hin as (im & <- & _).
  unfold PIL.pdf_encodable. now rewrite normalize_mode.
Qed.

Section EmitFacts.

Context `{Host}.

(** The common tail writes one page per frame, in order, at resolution
    100, to the absolute output path, and returns that path. *)
Lemma emit_ok (fs : FS) out ims :
  ims <> [] ->
  writable fs (abspath out) = true ->
  forallb PIL.pdf_encodable ims = true ->
  exists fs' : FS,
    emit out ims fs = (Ok (abspath out), fs')
    /\ fs' !! abspath out
       = Some (File (PdfFile (map (fun im => mkPage im 100) ims)))
    /\ (forall q, q <> abspath out ->
                  ¬ q `prefix_of` dirname (abspath out) ->
                  fs' !! q = fs !! q).
Proof.
  intros Hne Hw Henc. unfold emit, writable in *.
  apply andb_true_iff in Hw as [Hready Hnotdir].
  apply negb_true_iff in Hnotdir.
  set (p := abspath out) in *.
  destruct (ensure_dir_ok fs (dirname p) Hready)
    as (fs1 & Hrun & Hdir & Hother & _).
  rewrite (bind_ok _ _ fs _ fs1 Hrun).
  destruct ims as [|first rest]; [congruence|].
  assert (Hp : p <> []) by (intros E; now rewrite E in Hnotdir).
  assert (Hnp : ¬ p `prefix_of` dirname p).
  { unfold dirname. rewrite (app_removelast_last EmptyString Hp) at 1.
    apply join_not_prefix. }
  assert (Hnotdir1 : is_directory (node_at fs1 p) = false).
  { destruct p as [|x p']; [congruence|].
    change (is_directory (fs1 !! (x :: p')) = false).
    rewrite Hother by assumption. exact Hnotdir. }
  unfold save_pdf. rewrite Henc.
  rewrite (bind_ok _ _ fs1 _ _ (write_file_ok fs1 p _ Hdir Hnotdir1)).
  eexists. split; [reflexivity|]. split.
  - apply lookup_insert_eq.
  - intros q Hq Hpre. rewrite lookup_insert_ne by congruence.
    now apply Hother.
Qed.

End EmitFacts.

(** *** The claims about the combiners *)

Section CombinerClaims.

Context `{Host}.

(** C1. Directory mode on a directory with at least one matching entry,
    all of which decode: the selection is exactly the entries whose
    lower-cased name ends with one of the extensions; it is put in
    ascending string order; the call returns the absolute output path and
    the PDF written there has one page per selected entry, the normalized
    images in that order (the first sorted image first). *)
Theorem images_to_pdf_sorted_pages (fs : FS) images_dir output_pdf exts ims :
  is_directory (node_at fs (abspath images_dir)) = true ->
  (0 < length (select (OS.entries fs (abspath images_dir)) exts))%nat ->
  open_all fs (map (join (abspath images_dir))
                   (PyStr.sort (select (OS.entries fs (abspath images_dir)) exts)))
  = Ok ims ->
  writable fs (abspath output_pdf) = true ->
  (forall f, f ∈ select (OS.entries fs (abspath images_dir)) exts
             <-> f ∈ OS.entries fs (abspath images_dir)
                 /\ PyStr.endswith_any (PyStr.lower f) exts = true)
  /\ Sorted PyStr.le (PyStr.sort (select (OS.entries fs (abspath images_dir)) exts))
  /\ PyStr.sort (select (OS.entries fs (abspath images_dir)) exts)
     ≡ₚ select (OS.entries fs (abspath images_dir)) exts
  /\ (forall i f,
        PyStr.sort (select (OS.entries fs (abspath images_dir)) exts) !! i = Some f ->
        exists im, ims !! i = Some im
                   /\ Image_open (join (abspath images_dir) f) fs = (Ok im, fs))
  /\ length ims = length (select (OS.entries fs (abspath images_dir)) exts)
  /\ exists fs' : FS,
       images_to_pdf images_dir output_pdf exts fs = (Ok (abspath output_pdf), fs')
       /\ fs' !! abspath output_pdf
          = Some (File (PdfFile (map (fun im => mkPage (normalize im) 100) ims))).
Proof.
  intros Hdir Hsome Hopen Hw.
  set (d := abspath images_dir) in *.
  set (sel := select (OS.entries fs d) exts) in *.
  assert (Hlen : length ims = length sel).
  { rewrite (open_all_length _ _ _ Hopen), length_map.
    apply Permutation_length, sort_perm. }
  split; [|split; [|split; [|split; [|split]]]].
  - intros f. unfold sel, select. rewrite !list_elem_of_In, filter_In.
    reflexivity.
  - apply sort_sorted.
  - apply sort_perm.
  - intros i f Hf. apply (open_all_lookup fs _ ims i _ Hopen).
    rewrite list_lookup_fmap, Hf. reflexivity.
  - exact Hlen.
  - rewrite images_to_pdf_unfold. fold d. fold sel. rewrite Hdir.
    destruct sel as [|f sel'] eqn:Esel; [simpl in Hsome; lia|].
    rewrite Hopen.
    destruct (emit_ok fs output_pdf (map normalize ims)) as (fs' & Hrun & Hpdf & _).
    + destruct ims; [discriminate|discriminate].
    + exact Hw.
    + apply normalize_encodable.
    + exists fs'. split; [exact Hrun|]. rewrite Hpdf.
      now rewrite map_map.
Qed.

(** C2. File-list mode on a non-empty list of files that all decode: the
    call returns the absolute output path and the PDF written there has
    one page per list element, the normalized images in the order of the
    list as given. *)
Theorem images_to_pdf_from_files_pages (fs : FS) file_paths output_pdf ims :
  (0 < length file_paths)%nat ->
  open_all fs (map abspath file_paths) = Ok ims ->
  writable fs (abspath output_pdf) = true ->
  (forall i p, file_paths !! i = Some p ->
               exists im, ims !! i = Some im
                          /\ Image_open (abspath p) fs = (Ok im, fs))
  /\ length ims = length file_paths
  /\ exists fs' : FS,
       images_to_pdf_from_files file_paths output_pdf fs
       = (Ok (abspath output_pdf), fs')
       /\ fs' !! abspath output_pdf
          = Some (File (PdfFile (map (fun im => mkPage (normalize im) 100) ims))).
Proof.
  intros Hsome Hopen Hw.
  assert (Hlen : length ims = length file_paths).
  { now rewrite (open_all_length _ _ _ Hopen), length_map. }
  split; [|split].
  - intros i p Hp. apply (open_all_lookup fs _ ims i _ Hopen).
    rewrite list_lookup_fmap, Hp. reflexivity.
  - exact Hlen.
  - rewrite images_to_pdf_from_files_unfold.
    destruct file_paths as [|p ps]; [simpl in Hsome; lia|].
    rewrite Hopen.
    destruct (emit_ok fs output_pdf (map normalize ims)) as (fs' & Hrun & Hpdf & _).
    + destruct ims; discriminate.
    + exact Hw.
    + apply normalize_encodable.
    + exists fs'. split; [exact Hrun|]. rewrite Hpdf.
      now rewrite map_map.
Qed.

End CombinerClaims.

(** On the sample file system: [pics] yields [a.jpg] then [b.PNG]. *)
Lemma images_to_pdf_sorted_pages_witness :
  exists fs' : FS,
    @images_to_pdf Example.host0 "pics" "out/album.pdf" Example.exts0 Example.fs0
    = (Ok ["home"; "u"; "out"; "album.pdf"], fs')
    /\ fs' !! ["home"; "u"; "out"; "album.pdf"]
       = Some (File (PdfFile [mkPage (normalize Example.photo) 100;
                              mkPage (normalize Example.logo) 100])).
Proof.
  apply (@images_to_pdf_sorted_pages Example.host0 Example.fs0 "pics"
           "out/album.pdf" Example.exts0 [Example.photo; Example.logo]).
  - vm_compute. reflexivity.
  - vm_compute. lia.
  - vm_compute. reflexivity.
  - vm_compute. reflexivity.
Defined.

(** On the sample file system: the caller's order, [b.PNG] then [a.jpg],
    is kept. *)
Lemma images_to_pdf_from_files_pages_witness :
  exists fs' : FS,
    @images_to_pdf_from_files Example.host0 ["pics/b.PNG"; "/home/u/pics/a.jpg"]
      "album.pdf" Example.fs0
    = (Ok ["home"; "u"; "album.pdf"], fs')
    /\ fs' !! ["home"; "u"; "album.pdf"]
       = Some (File (PdfFile [mkPage (normalize Example.logo) 100;
                              mkPage (normalize Example.photo) 100])).
Proof.
  apply (@images_to_pdf_from_files_pages Example.host0 Example.fs0
           ["pics/b.PNG"; "/home/u/pics/a.jpg"] "album.pdf"
           [Example.logo; Example.photo]).
  - vm_compute. lia.
  - vm_compute. reflexivity.
  - vm_compute. reflexivity.
Defined.

Section GuardClaims.

Context `{Host}.

(** C5. Directory mode is file-list mode on the sorted selection: for an
    input directory, and path strings [file_paths] that spell the full
    paths of the matching entries in ascending order, both calls give the
    same result (return value or exception) and the same final file
    system, hence the same PDF. *)
Theorem images_to_pdf_delegates (fs : FS) images_dir output_pdf exts file_paths :
  is_directory (node_at fs (abspath images_dir)) = true ->
  map abspath file_paths
  = map (join (abspath images_dir))
        (PyStr.sort (select (OS.entries fs (abspath images_dir)) exts)) ->
  images_to_pdf images_dir output_pdf exts fs
  = images_to_pdf_from_files file_paths output_pdf fs.
Proof.
  intros Hdir Hpaths.
  rewrite images_to_pdf_unfold, images_to_pdf_from_files_unfold, Hdir, Hpaths.
  destruct (select _ exts) as [|f sel] eqn:Esel.
  - destruct file_paths; [reflexivity|discriminate].
  - destruct file_paths as [|p ps]; [|reflexivity].
    simpl in Hpaths. symmetry in Hpaths.
    apply fmap_nil_inv in Hpaths. apply (proj1 (sort_nil_iff _)) in Hpaths.
    discriminate.
Qed.

(** C6. With nothing to combine (no directory entry matches, or the file
    list is empty) either combiner raises [FileNotFoundError] and leaves
    the file system as it was: no output file, no new directory. *)
Theorem nothing_to_combine_not_found (fs : FS) images_dir output_pdf exts :
  select (OS.entries fs (abspath images_dir)) exts = [] ->
  images_to_pdf images_dir output_pdf exts fs = (Raise FileNotFoundError, fs)
  /\ images_to_pdf_from_files [] output_pdf fs = (Raise FileNotFoundError, fs).
Proof.
  intros Hnone. split; [|reflexivity].
  rewrite images_to_pdf_unfold, Hnone.
  now destruct (is_directory _).
Qed.

(** C7. When the PDF path is not an existing regular file,
    [convert_pdf_to_images] raises [FileNotFoundError] with the file
    system untouched: the output directory is neither created nor written
    to. *)
Theorem missing_pdf_not_found (fs : FS) pdf_path poppler_path output_dir :
  is_regular (node_at fs (abspath pdf_path)) = false ->
  convert_pdf_to_images pdf_path poppler_path output_dir fs
  = (Raise FileNotFoundError, fs).
Proof.
  intros Hmissing. unfold convert_pdf_to_images.
  rewrite (bind_ok _ _ fs _ fs (isfile_run _ fs)), Hmissing.
  reflexivity.
Qed.

(** C9. In both combiners the decoding of every input comes before any
    write: when one of the inputs fails to decode, the call ends with the
    exception of the first such input and the file system is unchanged
    (no output file, no new output directory). *)
Theorem decode_failure_writes_nothing (fs : FS) images_dir output_pdf exts
    file_paths e1 e2 :
  (is_directory (node_at fs (abspath images_dir)) = true ->
   open_all fs (map (join (abspath images_dir))
                    (PyStr.sort (select (OS.entries fs (abspath images_dir)) exts)))
   = Raise e1 ->
   images_to_pdf images_dir output_pdf exts fs = (Raise e1, fs))
  /\ (open_all fs (map abspath file_paths) = Raise e2 ->
      images_to_pdf_from_files file_paths output_pdf fs = (Raise e2, fs)).
Proof.
  split.
  - intros Hdir Hfail. rewrite images_to_pdf_unfold, Hdir.
    destruct (select _ exts) as [|f sel] eqn:Esel; [discriminate|].
    now rewrite Hfail.
  - intros Hfail. rewrite images_to_pdf_from_files_unfold.
    destruct file_paths as [|p ps]; [discriminate|].
    now rewrite Hfail.
Qed.

End GuardClaims.

(** On the sample file system, with one relative and one absolute
    spelling. *)
Lemma images_to_pdf_delegates_witness :
  @images_to_pdf Example.host0 "pics" "album.pdf" Example.exts0 Example.fs0
  = @images_to_pdf_from_files Example.host0
      ["/home/u/pics/a.jpg"; "pics/b.PNG"] "album.pdf" Example.fs0.
Proof.
  apply (@images_to_pdf_delegates Example.host0).
  - vm_compute. reflexivity.
  - vm_compute. reflexivity.
Defined.

(** On the sample file system: no [.gif] in [pics]; and the empty list. *)
Lemma nothing_to_combine_not_found_witness :
  @images_to_pdf Example.host0 "pics" "album.pdf" [".gif"] Example.fs0
  = (Raise FileNotFoundError, Example.fs0)
  /\ @images_to_pdf_from_files Example.host0 [] "album.pdf" Example.fs0
     = (Raise FileNotFoundError, Example.fs0).
Proof.
  apply (@nothing_to_combine_not_found Example.host0).
  vm_compute. reflexivity.
Defined.

(** On the sample file system: there is no [missing.pdf]. *)
Lemma missing_pdf_not_found_witness :
  @convert_pdf_to_images Example.host0 "missing.pdf" None "pages" Example.fs0
  = (Raise FileNotFoundError, Example.fs0).
Proof.
  apply (@missing_pdf_not_found Example.host0).
  vm_compute. reflexivity.
Defined.

(** On the sample file system with an undecodable [c.png]: neither [out]
    nor [album.pdf] appears. *)
Lemma decode_failure_writes_nothing_witness :
  @images_to_pdf Example.host0 "pics" "out/album.pdf" Example.exts0 Example.fs2
  = (Raise UnidentifiedImageError, Example.fs2)
  /\ @images_to_pdf_from_files Example.host0 ["pics/a.jpg"; "pics/notes.txt"]
       "out/album.pdf" Example.fs2
     = (Raise UnidentifiedImageError, Example.fs2).
Proof.
  destruct (@decode_failure_writes_nothing Example.host0 Example.fs2 "pics"
              "out/album.pdf" Example.exts0 ["pics/a.jpg"; "pics/notes.txt"]
              UnidentifiedImageError UnidentifiedImageError) as [Hdir Hfiles].
  split.
  - apply Hdir; vm_compute; reflexivity.
  - apply Hfiles; vm_compute; reflexivity.
Defined.

(** *** The page files of [convert_pdf_to_images] *)

Lemma string_length_app (s t : string) :
  String.length (s +:+ t) = (String.length s + String.length t)%nat.
Proof.
  induction s as [|a s IH]; [reflexivity|].
  change (String a s +:+ t) with (String a (s +:+ t)).
  cbn [String.length]. now rewrite IH.
Qed.

Lemma string_app_inj_r (t s1 s2 : string) : s1 +:+ t = s2 +:+ t -> s1 = s2.
Proof.
  revert s2. induction s1 as [|a s1 IH]; intros [|b s2] E.
  - reflexivity.
  - apply (f_equal String.length) in E.
    rewrite !string_length_app in E. cbn [String.length] in E. lia.
  - apply (f_equal String.length) in E.
    rewrite !string_length_app in E. cbn [String.length] in E. lia.
  - change (String a (s1 +:+ t) = String b (s2 +:+ t)) in E.
    injection E as -> E. f_equal. now apply IH.
Qed.

(** Distinct page numbers give distinct file names. *)
Lemma page_name_inj n m : page_name n = page_name m -> n = m.
Proof.
  unfold page_name. intros E.
  apply String.app_inj, string_app_inj_r in E.
  now apply pretty_Z_inj in E.
Qed.

Lemma join_inj d a b : join d a = join d b -> a = b.
Proof. unfold join. intros E. apply app_inv_head in E. congruence. Qed.

Lemma join_neq_dir d name : join d name <> d.
Proof.
  unfold join. intros E. apply (f_equal length) in E.
  rewrite length_app in E. simpl in E. lia.
Qed.

Lemma node_at_join (fs : FS) d name : node_at fs (join d name) = fs !! join d name.
Proof. unfold join. apply node_at_nonempty. Qed.

Lemma elem_of_page_paths q d c k :
  q ∈ page_paths d c k <->
  exists i, (i < k)%nat /\ q = join d (page_name (c + Z.of_nat i)).
Proof.
  unfold page_paths. rewrite list_elem_of_fmap. split.
  - intros (i & -> & Hi). apply list_elem_of_In, in_seq in Hi. exists i. split; [lia|reflexivity].
  - intros (i & Hi & ->). exists i. split; [reflexivity|].
    apply list_elem_of_In, in_seq. lia.
Qed.

(** The loop of lines 45-49: page [i] of the list goes to the file named
    after [c + i], the counter ends at [c] plus the number of pages, and no
    other path is touched. *)
Lemma save_pages_loop d pages : forall c (fs : FS),
  node_at fs d = Some Dir ->
  no_directory_at fs (page_paths d c (length pages)) = true ->
  exists fs' : FS,
    for_each pages (fun page counter =>
                      save_png page (join d ("page_" +:+ pretty counter +:+ ".png")) ;;
                      ret (counter + 1)%Z) c fs
    = (Ok (c + Z.of_nat (length pages))%Z, fs')
    /\ (forall i page, pages !! i = Some page ->
          fs' !! join d (page_name (c + Z.of_nat i)) = Some (File (ImageFile PNG page)))
    /\ (forall q, q ∉ page_paths d c (length pages) -> fs' !! q = fs !! q).
Proof.
  induction pages as [|page pages IH]; intros c fs Hdir Hfree.
  - exists fs. split; [simpl; now rewrite Z.add_0_r|]. split; [easy|reflexivity].
  - unfold no_directory_at in Hfree. rewrite forallb_forall in Hfree.
    assert (Hfree' : forall i, (i < S (length pages))%nat ->
              is_directory (fs !! join d (page_name (c + Z.of_nat i))) = false).
    { intros i Hi. rewrite <- node_at_join. apply negb_true_iff, Hfree.
      apply list_elem_of_In, elem_of_page_paths. eauto. }
    set (p0 := join d (page_name c)).
    assert (Hw : OS.write_file p0 (ImageFile PNG page) fs
                 = (Ok tt, <[p0 := File (ImageFile PNG page)]> fs)).
    { apply write_file_ok.
      - unfold p0. now rewrite dirname_join.
      - unfold p0. rewrite node_at_join.
        specialize (Hfree' 0%nat ltac:(lia)). now rewrite Z.add_0_r in Hfree'. }
    destruct (IH (c + 1)%Z (<[p0 := File (ImageFile PNG page)]> fs))
      as (fs' & Hrun & Hpages & Hrest).
    { destruct d as [|x d']; [reflexivity|].
      change (<[p0 := File (ImageFile PNG page)]> fs !! (x :: d') = Some Dir).
      rewrite lookup_insert_ne; [exact Hdir|]. apply join_neq_dir. }
    { unfold no_directory_at. apply forallb_forall. intros q Hq.
      apply list_elem_of_In, elem_of_page_paths in Hq as (i & Hi & ->).
      rewrite node_at_join, lookup_insert_ne.
      - apply negb_true_iff.
        replace (c + 1 + Z.of_nat i)%Z with (c + Z.of_nat (S i))%Z by lia.
        apply Hfree'. lia.
      - unfold p0. intros E. apply join_inj, page_name_inj in E. lia. }
    exists fs'. split; [|split].
    + cbn [for_each].
      assert (Hbody : (save_png page (join d ("page_" +:+ pretty c +:+ ".png")) ;;
                       ret (c + 1)%Z) fs
                      = (Ok (c + 1)%Z, <[p0 := File (ImageFile PNG page)]> fs)).
      { unfold save_png. now rewrite (bind_ok _ _ fs _ _ Hw). }
      rewrite (bind_ok _ _ fs _ _ Hbody), Hrun.
      f_equal. f_equal. simpl length. lia.
    + intros [|i] pg Hpg; simpl in Hpg.
      * injection Hpg as <-. rewrite Z.add_0_r. fold p0.
        rewrite Hrest; [apply lookup_insert_eq|].
        rewrite elem_of_page_paths. intros (i & _ & E).
        unfold p0 in E. apply join_inj, page_name_inj in E. lia.
      * replace (c + Z.of_nat (S i))%Z with (c + 1 + Z.of_nat i)%Z by lia.
        now apply Hpages.
    + intros q Hq. rewrite Hrest.
      * apply lookup_insert_ne. intros <-. apply Hq.
        apply elem_of_page_paths. exists 0%nat. split; [simpl; lia|].
        now rewrite Z.add_0_r.
      * rewrite elem_of_page_paths. intros (i & Hi & ->). apply Hq.
        apply elem_of_page_paths. exists (S i). split; [simpl; lia|].
        f_equal. f_equal. lia.
Qed.

Section PagesClaim.

Context `{Host}.

Lemma convert_pdf_to_images_unfold (pdf_path : string)
    (poppler_path : option string) (output_dir : string) (fs : FS) :
  convert_pdf_to_images pdf_path poppler_path output_dir fs =
  if is_regular (node_at fs (abspath pdf_path)) then
    (ensure_dir (abspath output_dir) ;;
     if negb pdf2image_installed then raise RuntimeError else
     pages <- convert_from_path (abspath pdf_path) poppler_path ;;
     counter <- for_each pages (fun page counter =>
                  save_png page (join (abspath output_dir)
                                      ("page_" +:+ pretty counter +:+ ".png")) ;;
                  ret (counter + 1)%Z) 1%Z ;;
     ret (counter - 1)%Z) fs
  else (Raise FileNotFoundError, fs).
Proof.
  unfold convert_pdf_to_images.
  rewrite (bind_ok _ _ fs _ fs (isfile_run _ fs)).
  destruct (is_regular _); reflexivity.
Qed.

(** C4. For an existing PDF of K pages (with the rasterizer installed and
    Poppler found, an output directory that exists or can be made, and no
    directory sitting where a page file goes), [convert_pdf_to_images]
    returns K; page number n of the document, rendered, is then the PNG
    file [page_<n>.png] of the output directory, for n from 1 to K in page
    order, whatever was at that name before; and apart from these K files
    and the directories leading to the output directory, the file system
    is as it was. *)
Theorem convert_pdf_to_images_pages (fs : FS) pdf_path poppler_path
    output_dir pages :
  node_at fs (abspath pdf_path) = Some (File (PdfFile pages)) ->
  pdf2image_installed = true ->
  poppler_found poppler_path = true ->
  dir_ready fs (abspath output_dir) = true ->
  no_directory_at fs (page_paths (abspath output_dir) 1 (length pages)) = true ->
  exists fs' : FS,
    convert_pdf_to_images pdf_path poppler_path output_dir fs
    = (Ok (Z.of_nat (length pages)), fs')
    /\ (forall i pg, pages !! i = Some pg ->
          fs' !! join (abspath output_dir) (page_name (Z.of_nat i + 1))
          = Some (File (ImageFile PNG (rendered pg))))
    /\ (forall q, q ∉ page_paths (abspath output_dir) 1 (length pages) ->
                  ¬ q `prefix_of` abspath output_dir ->
                  fs' !! q = fs !! q).
Proof.
  intros Hpdf Hinst Hpop Hready Hfree.
  set (d := abspath output_dir) in *.
  rewrite convert_pdf_to_images_unfold, Hpdf. cbn [is_regular]. fold d.
  destruct (ensure_dir_ok fs d Hready) as (fs1 & Hrun1 & Hdir1 & Hother1 & Hkeep1).
  rewrite (bind_ok _ _ fs _ fs1 Hrun1), Hinst. cbn [negb].
  assert (Hpdf1 : node_at fs1 (abspath pdf_path) = Some (File (PdfFile pages))).
  { destruct (abspath pdf_path) as [|x p]; [discriminate|].
    cbn [node_at] in Hpdf |- *.
    rewrite Hkeep1; [exact Hpdf|]. rewrite Hpdf. eauto. }
  assert (Hconv : convert_from_path (abspath pdf_path) poppler_path fs1
                  = (Ok (map rendered pages), fs1)).
  { unfold convert_from_path. now rewrite Hpop, Hpdf1. }
  rewrite (bind_ok _ _ fs1 _ fs1 Hconv).
  destruct (save_pages_loop d (map rendered pages) 1%Z fs1 Hdir1)
    as (fs' & Hrun & Hpages & Hrest).
  { rewrite length_map. unfold no_directory_at in *.
    rewrite forallb_forall in *. intros q Hq.
    pose proof (Hfree q Hq) as Hfq.
    apply list_elem_of_In, elem_of_page_paths in Hq as (i & Hi & ->).
    rewrite node_at_join in *. rewrite Hother1; [exact Hfq|].
    apply join_not_prefix. }
  rewrite length_map in Hrun, Hrest.
  rewrite (bind_ok _ _ fs1 _ fs' Hrun).
  exists fs'. split; [|split].
  - unfold ret. f_equal. f_equal. lia.
  - intros i pg Hpg. rewrite Z.add_comm. apply Hpages.
    now rewrite list_lookup_fmap, Hpg.
  - intros q Hq Hpre. rewrite Hrest by assumption. now apply Hother1.
Qed.

End PagesClaim.

(** On the sample file system: the three pages of [doc.pdf] go to
    [pages/new], which is made on the way. *)
Lemma convert_pdf_to_images_pages_witness :
  exists fs' : FS,
    @convert_pdf_to_images Example.host0 "doc.pdf" None "pages/new" Example.fs0
    = (Ok 3%Z, fs')
    /\ (forall i pg,
          [mkPage Example.photo 72; mkPage Example.logo 72; mkPage Example.ghost 72]
            !! i = Some pg ->
          fs' !! join ["home"; "u"; "pages"; "new"] (page_name (Z.of_nat i + 1))
          = Some (File (ImageFile PNG (@rendered Example.host0 pg))))
    /\ (forall q,
          q ∉ page_paths ["home"; "u"; "pages"; "new"] 1 3 ->
          ¬ q `prefix_of` ["home"; "u"; "pages"; "new"] ->
          fs' !! q = Example.fs0 !! q).
Proof.
  apply (@convert_pdf_to_images_pages Example.host0 Example.fs0 "doc.pdf" None
           "pages/new"
           [mkPage Example.photo 72; mkPage Example.logo 72; mkPage Example.ghost 72]).
  - vm_compute. reflexivity.
  - reflexivity.
  - reflexivity.
  - vm_compute. reflexivity.
  - vm_compute. reflexivity.
Defined.

(** Page names are the decimal page number without padding. *)
Example page_name_examples :
  page_name 1 = "page_1.png" /\ page_name 9 = "page_9.png"
  /\ page_name 10 = "page_10.png" /\ page_name 123 = "page_123.png".
Proof. repeat split; reflexivity. Qed.

(** *** Directory listings and entries that are not regular files *)

Lemma child_name_spec d k n : OS.child_name d k = Some n <-> k = join d n.
Proof.
  unfold join. revert k. induction d as [|x d IH]; intros k; simpl.
  - destruct k as [|y [|z k]]; split; intros E; try discriminate; congruence.
  - destruct k as [|y k]; [split; discriminate|].
    destruct (String.eqb_spec x y) as [->|Hne].
    + rewrite IH. split; congruence.
    + split; [discriminate|congruence].
Qed.

(** The listing of [d] names exactly the nodes directly below [d]. *)
Lemma elem_of_entries (fs : FS) d n :
  n ∈ OS.entries fs d <-> is_Some (fs !! join d n).
Proof.
  unfold OS.entries. rewrite list_elem_of_omap. split.
  - intros (k & Hk & Hchild). apply child_name_spec in Hchild as ->.
    apply list_elem_of_fmap in Hk as ([k v] & -> & Hkv).
    apply elem_of_map_to_list in Hkv. simpl. eauto.
  - intros [v Hv]. exists (join d n). split; [|now apply child_name_spec].
    apply list_elem_of_fmap. exists (join d n, v). split; [reflexivity|].
    now apply elem_of_map_to_list.
Qed.

(** Opening something that exists never raises [FileNotFoundError]. *)
Lemma Image_open_existing (fs : FS) d n e :
  is_Some (fs !! join d n) ->
  fst (Image_open (join d n) fs) = Raise e -> is_not_found e = false.
Proof.
  unfold Image_open. rewrite node_at_join. intros [v ->].
  destruct v as [[fmt im|pages| ]| ]; simpl; intros [= <-]; reflexivity.
Qed.

Lemma open_all_existing (fs : FS) d names e :
  (forall n, n ∈ names -> is_Some (fs !! join d n)) ->
  open_all fs (map (join d) names) = Raise e -> is_not_found e = false.
Proof.
  induction names as [|n names IH]; intros Hex; simpl; [discriminate|].
  destruct (fst (Image_open (join d n) fs)) as [im|e0] eqn:E0.
  - destruct (open_all fs (map (join d) names)) eqn:Eall; [discriminate|].
    intros [= <-]. apply IH; [|reflexivity].
    intros m Hm. apply Hex. now right.
  - intros [= <-]. apply (Image_open_existing fs d n); [|exact E0].
    apply Hex. now left.
Qed.

Section EntryKindClaim.

Context `{Host}.

(** C10. Selection goes by name alone.  Whenever the input directory has
    a subdirectory whose lower-cased name ends with an accepted
    extension, that entry is among the selected ones, and the call ends
    in the decoding loop with an exception that is not
    [FileNotFoundError], the file system being unchanged. *)
Theorem directory_entry_selected_then_decode_fails (fs : FS) images_dir
    output_pdf exts name :
  is_directory (node_at fs (abspath images_dir)) = true ->
  fs !! join (abspath images_dir) name = Some Dir ->
  PyStr.endswith_any (PyStr.lower name) exts = true ->
  name ∈ select (OS.entries fs (abspath images_dir)) exts
  /\ exists e,
       open_all fs (map (join (abspath images_dir))
                        (PyStr.sort (select (OS.entries fs (abspath images_dir)) exts)))
       = Raise e
       /\ is_not_found e = false
       /\ images_to_pdf images_dir output_pdf exts fs = (Raise e, fs).
Proof.
  intros Hdir Hsub Hext.
  set (d := abspath images_dir) in *.
  assert (Hsel : name ∈ select (OS.entries fs d) exts).
  { unfold select. apply list_elem_of_In, filter_In. split; [|exact Hext].
    apply list_elem_of_In, elem_of_entries. rewrite Hsub. eauto. }
  split; [exact Hsel|].
  assert (Hsorted : name ∈ PyStr.sort (select (OS.entries fs d) exts)).
  { now rewrite sort_perm. }
  destruct (open_all_raise fs (map (join d) (PyStr.sort (select (OS.entries fs d) exts)))
              (join d name) IsADirectoryError) as [e He].
  { apply list_elem_of_fmap. eauto. }
  { unfold Image_open. rewrite node_at_join, Hsub. reflexivity. }
  exists e. split; [exact He|]. split.
  - apply (open_all_existing fs d
             (PyStr.sort (select (OS.entries fs d) exts)) e); [|exact He].
    intros n Hn. rewrite sort_perm in Hn.
    unfold select in Hn. apply list_elem_of_In, filter_In in Hn as [Hn _].
    now apply elem_of_entries, list_elem_of_In.
  - rewrite images_to_pdf_unfold. fold d. rewrite Hdir.
    destruct (select (OS.entries fs d) exts) as [|f sel] eqn:Esel.
    + now apply not_elem_of_nil in Hsel.
    + now rewrite He.
Qed.

End EntryKindClaim.

(** On the sample file system with the directory [scans.png] inside
    [pics]. *)
Lemma directory_entry_selected_then_decode_fails_witness :
  "scans.png" ∈ select (OS.entries Example.fs1 ["home"; "u"; "pics"]) Example.exts0
  /\ exists e,
       open_all Example.fs1
         (map (join ["home"; "u"; "pics"])
              (PyStr.sort (select (OS.entries Example.fs1 ["home"; "u"; "pics"])
                                  Example.exts0)))
       = Raise e
       /\ is_not_found e = false
       /\ @images_to_pdf Example.host0 "pics" "album.pdf" Example.exts0 Example.fs1
          = (Raise e, Example.fs1).
Proof.
  apply (@directory_entry_selected_then_decode_fails Example.host0 Example.fs1
           "pics" "album.pdf" Example.exts0 "scans.png").
  - vm_compute. reflexivity.
  - vm_compute. reflexivity.
  - vm_compute. reflexivity.
Defined.

(** *** Selection by extension *)

(** C8, as amended.  The file name is lower-cased, the extensions are used
    as given: when the accepted extensions are themselves in lower case,
    the selection is exactly the entries that match one of them without
    regard to case, in directory order. *)
Theorem select_case_insensitive_for_lowercase_exts (entries exts : list string) :
  forallb (fun e => String.eqb (PyStr.lower e) e) exts = true ->
  select entries exts = select_ci entries exts.
Proof.
  intros Hlow. unfold select, select_ci.
  apply filter_ext_in. intros f _.
  unfold PyStr.endswith_any.
  induction exts as [|e exts IH]; [reflexivity|].
  simpl in Hlow. apply andb_true_iff in Hlow as [He Hrest].
  apply String.eqb_eq in He.
  simpl. unfold matches_ci at 1. rewrite He. f_equal. now apply IH.
Qed.

(** With the extensions the application passes. *)
Lemma select_case_insensitive_for_lowercase_exts_witness :
  select ["b.PNG"; "a.Jpg"; "notes.txt"; "c.jpeg.bak"] Example.exts0
  = select_ci ["b.PNG"; "a.Jpg"; "notes.txt"; "c.jpeg.bak"] Example.exts0.
Proof.
  apply (select_case_insensitive_for_lowercase_exts
           ["b.PNG"; "a.Jpg"; "notes.txt"; "c.jpeg.bak"] Example.exts0).
  vm_compute. reflexivity.
Defined.

(** C8, as stated, fails: an extension supplied in upper case selects
    nothing, although the name matches it without regard to case. *)
Lemma select_uppercase_ext_counterexample :
  select ["scan.png"; "SCAN2.PNG"] [".PNG"] = []
  /\ select_ci ["scan.png"; "SCAN2.PNG"] [".PNG"] = ["scan.png"; "SCAN2.PNG"].
Proof. split; reflexivity. Qed.

(** *** Normalization *)

(** The mixing formula returns the pasted value under a full mask and the
    old value under an empty one. *)
Lemma blend8_ends (v : Z) :
  (0 <= v <= 255)%Z ->
  forall w, PIL.blend8 255 w v = v /\ PIL.blend8 0 v w = v.
Proof.
  intros Hv w.
  assert (Hall : forallb (fun k => (PIL.blend8 255 0 (Z.of_nat k) =? Z.of_nat k)%Z
                                   && (PIL.blend8 0 (Z.of_nat k) 0 =? Z.of_nat k)%Z)
                         (seq 0 256) = true) by (vm_compute; reflexivity).
  rewrite forallb_forall in Hall.
  specialize (Hall (Z.to_nat v)). rewrite Z2Nat.id in Hall by lia.
  destruct (proj1 (andb_true_iff _ _) (Hall ltac:(apply in_seq; lia))) as [H1 H2].
  apply Z.eqb_eq in H1, H2. unfold PIL.blend8 in *.
  split.
  - rewrite <- H1 at 3. f_equal. f_equal; [f_equal|]; lia.
  - rewrite <- H2 at 3. f_equal. f_equal; [f_equal|]; lia.
Qed.

(** An ["RGBA"] image is composited over white, pixel by pixel, by its own
    alpha band. *)
Lemma normalize_RGBA sz px inf :
  length px = Z.to_nat (fst sz * snd sz) ->
  normalize (PIL.mkImage sz (PIL.RGBA px) inf)
  = PIL.mkImage sz (PIL.RGB (composited_over_white 0 (PIL.RGBA px))) [].
Proof.
  intros Hlen. unfold normalize, PIL.paste. simpl. f_equal. f_equal.
  rewrite <- Hlen. clear Hlen.
  induction px as [|[c a] px IH]; [reflexivity|].
  simpl. f_equal. exact IH.
Qed.

(** An image without alpha band or palette transparency is converted. *)
Lemma normalize_opaque im :
  PIL.mode im <> "RGBA" -> PIL.mode im <> "LA" ->
  (PIL.mode im = "P" -> PIL.info_has "transparency" im = false) ->
  normalize im = PIL.convert_RGB im.
Proof.
  intros H1 H2 H3. unfold normalize. cbn [existsb].
  apply String.eqb_neq in H1, H2. rewrite H1, H2. simpl.
  destruct (String.eqb_spec (PIL.mode im) "P") as [E|_]; [|reflexivity].
  now rewrite (H3 E).
Qed.

(** C3, where the code departs from it.  A fully transparent black pixel
    in mode ["LA"], and a palette pixel at the index marked transparent,
    are pasted without a mask: the page shows the colour stored under the
    transparency (black, red), not the white of the background the code
    has just made, which is what compositing over white gives.  The
    ["RGBA"] sibling, pasted with its alpha band as mask, does come out
    white. *)
Theorem normalize_unmasked_paste_keeps_hidden_colour :
  normalize Example.ghost = PIL.mkImage (1, 1) (PIL.RGB [(0, 0, 0)%Z]) []
  /\ composited_over_white 0 (PIL.data Example.ghost) = [PIL.white]
  /\ normalize Example.sticker = PIL.mkImage (1, 1) (PIL.RGB [(200, 0, 0)%Z]) []
  /\ composited_over_white 0 (PIL.data Example.sticker) = [PIL.white]
  /\ normalize Example.logo = PIL.mkImage (1, 1) (PIL.RGB [PIL.white]) [].
Proof. repeat split; reflexivity. Qed.

(** ** Further properties of the three functions *)

(** *** Nothing that exists is removed or altered, except the outputs *)

Lemma keeps_ret {A} P (a : A) : keeps P (ret a).
Proof. intros fs q _ _. reflexivity. Qed.

Lemma keeps_raise {A} P e : keeps P (@raise A e).
Proof. intros fs q _ _. reflexivity. Qed.

Lemma keeps_bind {A B} P (c : M A) (k : A -> M B) :
  keeps P c -> (forall a, keeps P (k a)) -> keeps P (bind c k).
Proof.
  intros Hc Hk fs q HP Hq. unfold bind.
  specialize (Hc fs q HP Hq).
  destruct (c fs) as [[a|e] fs1]; simpl in Hc; [|exact Hc].
  rewrite (Hk a fs1 q HP) by (now rewrite Hc). exact Hc.
Qed.

Lemma keeps_weaken {A} (P Q : path -> Prop) (c : M A) :
  (forall q, P q -> Q q) -> keeps Q c -> keeps P c.
Proof. intros HPQ Hc fs q HP. apply Hc, HPQ, HP. Qed.

Lemma keeps_for_each {A S} P (body : A -> S -> M S) xs :
  (forall x s, keeps P (body x s)) -> forall s, keeps P (for_each xs body s).
Proof.
  intros Hbody. induction xs as [|x xs IH]; intros s; simpl.
  - apply keeps_ret.
  - apply keeps_bind; [apply Hbody|exact IH].
Qed.

Lemma keeps_isdir P d : keeps P (OS.isdir d).
Proof. intros fs q _ _. reflexivity. Qed.

Lemma keeps_isfile P p : keeps P (OS.isfile p).
Proof. intros fs q _ _. reflexivity. Qed.

Lemma keeps_listdir P d : keeps P (OS.listdir d).
Proof.
  intros fs q _ _. unfold OS.listdir.
  destruct (node_at fs d) as [[c| ]| ]; reflexivity.
Qed.

Lemma keeps_Image_open P p : keeps P (Image_open p).
Proof. intros fs q _ _. now rewrite Image_open_pure. Qed.

Lemma keeps_convert_from_path `{Host} P p pp : keeps P (convert_from_path p pp).
Proof.
  intros fs q _ _. unfold convert_from_path.
  destruct (negb _); [reflexivity|].
  destruct (node_at fs p) as [[[ | | ]| ]| ]; reflexivity.
Qed.

(** [makedirs] only ever adds directories where there was nothing. *)
Lemma keeps_makedirs_from P rest : forall pre, keeps P (OS.makedirs_from pre rest).
Proof.
  induction rest as [|n rest IH]; intros pre fs q HP Hq; [reflexivity|].
  cbn [OS.makedirs_from]. unfold join. rewrite node_at_nonempty.
  destruct (fs !! (pre ++ [n])) as [[c| ]| ] eqn:E.
  - reflexivity.
  - now apply IH.
  - rewrite (IH (pre ++ [n]) (<[pre ++ [n] := Dir]> fs) q HP).
    + apply lookup_insert_ne. intros <-. rewrite E in Hq. now destruct Hq.
    + rewrite lookup_insert_ne; [exact Hq|].
      intros <-. rewrite E in Hq. now destruct Hq.
Qed.

Lemma keeps_makedirs P d : keeps P (OS.makedirs d).
Proof. apply keeps_makedirs_from. Qed.

Lemma keeps_write_file p c : keeps (fun q => q <> p) (OS.write_file p c).
Proof.
  intros fs q Hne _. unfold OS.write_file.
  destruct p as [|x p]; [reflexivity|].
  destruct (node_at fs (dirname (x :: p))) as [[c'| ]| ]; try reflexivity.
  destruct (fs !! (x :: p)) as [[c'| ]| ]; try reflexivity;
    simpl; now rewrite lookup_insert_ne.
Qed.

Lemma keeps_save_pdf first p r rest :
  keeps (fun q => q <> p) (save_pdf first p r rest).
Proof.
  unfold save_pdf. destruct (forallb _ _); [apply keeps_write_file|apply keeps_raise].
Qed.

Section KeepsFacts.

Context `{Host}.

(** X1. Neither combiner removes or alters anything that exists, other
    than the output file: whatever the call returns, every node present
    before it, at a path other than the absolute output path, is still
    there afterwards with the same content. *)
Theorem combiners_keep_existing_nodes (images_dir : string)
    (exts file_paths : list string) (output_pdf : string) (fs : FS) (q : path) :
  q <> abspath output_pdf ->
  is_Some (fs !! q) ->
  snd (images_to_pdf images_dir output_pdf exts fs) !! q = fs !! q
  /\ snd (images_to_pdf_from_files file_paths output_pdf fs) !! q = fs !! q.
Proof.
  intros Hq Hsome.
  assert (Htail : forall imgs,
    keeps (fun q => q <> abspath output_pdf)
      (is_dir <- OS.isdir (dirname (abspath output_pdf)) ;;
       (if negb is_dir then OS.makedirs (dirname (abspath output_pdf)) else ret tt) ;;
       match imgs with
       | [] => raise IndexError
       | first :: rest =>
           save_pdf first (abspath output_pdf) 100 rest ;; ret (abspath output_pdf)
       end)).
  { intros imgs. apply keeps_bind; [apply keeps_isdir|]. intros b.
    apply keeps_bind.
    - destruct (negb b); [apply keeps_makedirs|apply keeps_ret].
    - intros _. destruct imgs as [|first rest]; [apply keeps_raise|].
      apply keeps_bind; [apply keeps_save_pdf|]. intros _. apply keeps_ret. }
  split.
  - revert fs q Hq Hsome. change (keeps (fun q => q <> abspath output_pdf)
                                    (images_to_pdf images_dir output_pdf exts)).
    unfold images_to_pdf.
    apply keeps_bind; [apply keeps_isdir|]. intros b.
    destruct (negb b); [apply keeps_raise|].
    apply keeps_bind; [apply keeps_listdir|]. intros entries.
    destruct (select entries exts) as [|f files]; [apply keeps_raise|].
    apply keeps_bind; [|exact Htail].
    apply keeps_for_each. intros fname imgs.
    apply keeps_bind; [apply keeps_Image_open|]. intros im. apply keeps_ret.
  - revert fs q Hq Hsome. change (keeps (fun q => q <> abspath output_pdf)
                                    (images_to_pdf_from_files file_paths output_pdf)).
    unfold images_to_pdf_from_files.
    destruct file_paths as [|p ps]; [apply keeps_raise|].
    apply keeps_bind; [|exact Htail].
    apply keeps_for_each. intros fname imgs.
    apply keeps_bind; [apply keeps_Image_open|]. intros im. apply keeps_ret.
Qed.

(** X2. [convert_pdf_to_images] removes or alters nothing that exists,
    other than files named [page_<n>.png] in the output directory:
    whatever the call returns, every other node present before it is still
    there afterwards with the same content. *)
Theorem convert_keeps_existing_nodes (pdf_path : string)
    (poppler_path : option string) (output_dir : string) (fs : FS) (q : path) :
  (forall n, q <> join (abspath output_dir) (page_name n)) ->
  is_Some (fs !! q) ->
  snd (convert_pdf_to_images pdf_path poppler_path output_dir fs) !! q = fs !! q.
Proof.
  revert fs q.
  change (keeps (fun q => forall n, q <> join (abspath output_dir) (page_name n))
                (convert_pdf_to_images pdf_path poppler_path output_dir)).
  unfold convert_pdf_to_images.
  apply keeps_bind; [apply keeps_isfile|]. intros b.
  destruct (negb b); [apply keeps_raise|].
  apply keeps_bind; [apply keeps_isdir|]. intros b'.
  apply keeps_bind.
  { destruct (negb b'); [apply keeps_makedirs|apply keeps_ret]. }
  intros _. destruct (negb pdf2image_installed); [apply keeps_raise|].
  apply keeps_bind; [apply keeps_convert_from_path|]. intros pages.
  apply keeps_bind; [|intros c; apply keeps_ret].
  apply keeps_for_each. intros page c.
  apply keeps_bind; [|intros _; apply keeps_ret].
  apply (keeps_weaken _ (fun q => q <> join (abspath output_dir) (page_name c))).
  - intros q Hq. apply Hq.
  - apply keeps_write_file.
Qed.

End KeepsFacts.

(** On the sample file system: the input images survive the call. *)
Lemma combiners_keep_existing_nodes_witness :
  snd (@images_to_pdf Example.host0 "pics" "out/album.pdf" Example.exts0 Example.fs0)
    !! ["home"; "u"; "pics"; "a.jpg"]
  = Example.fs0 !! ["home"; "u"; "pics"; "a.jpg"]
  /\ snd (@images_to_pdf_from_files Example.host0 ["pics/a.jpg"] "out/album.pdf"
            Example.fs0) !! ["home"; "u"; "pics"; "a.jpg"]
     = Example.fs0 !! ["home"; "u"; "pics"; "a.jpg"].
Proof.
  apply (@combiners_keep_existing_nodes Example.host0).
  - vm_compute. discriminate.
  - vm_compute. eauto.
Defined.

(** On the sample file system: the PDF itself survives the call. *)
Lemma convert_keeps_existing_nodes_witness :
  snd (@convert_pdf_to_images Example.host0 "doc.pdf" None "pages" Example.fs0)
    !! ["home"; "u"; "doc.pdf"]
  = Example.fs0 !! ["home"; "u"; "doc.pdf"].
Proof.
  apply (@convert_keeps_existing_nodes Example.host0).
  - intros n. vm_compute. discriminate.
  - vm_compute. eauto.
Defined.

(** *** Failures of [convert_pdf_to_images] after the first check *)

Lemma for_each_app {A S} (xs ys : list A) (body : A -> S -> M S) (s : S)
    (fs : FS) :
  for_each (xs ++ ys) body s fs
  = match for_each xs body s fs with
    | (Ok s', fs') => for_each ys body s' fs'
    | (Raise e, fs') => (Raise e, fs')
    end.
Proof.
  revert s fs. induction xs as [|x xs IH]; intros s fs; [reflexivity|].
  cbn [app for_each]. unfold bind.
  destruct (body x s fs) as [[s1|e] fs1]; [apply IH|reflexivity].
Qed.

Lemma ensure_dir_existing (fs : FS) (d : path) :
  is_directory (node_at fs d) = true -> ensure_dir d fs = (Ok tt, fs).
Proof.
  intros Hdir. unfold ensure_dir.
  rewrite (bind_ok _ _ fs _ fs (isdir_run d fs)), Hdir. reflexivity.
Qed.

Section ConvertFailures.

Context `{Host}.

(** X3. The package check comes after the output directory is made: with
    an existing PDF but no [pdf2image], the call raises [RuntimeError], and
    by then the output directory exists; nothing outside the chain of
    directories leading to it has changed. *)
Theorem convert_without_pdf2image_still_makes_directory (fs : FS)
    (pdf_path : string) (poppler_path : option string) (output_dir : string) :
  is_regular (node_at fs (abspath pdf_path)) = true ->
  pdf2image_installed = false ->
  dir_ready fs (abspath output_dir) = true ->
  exists fs' : FS,
    convert_pdf_to_images pdf_path poppler_path output_dir fs
    = (Raise RuntimeError, fs')
    /\ node_at fs' (abspath output_dir) = Some Dir
    /\ (forall q, ¬ q `prefix_of` abspath output_dir -> fs' !! q = fs !! q).
Proof.
  intros Hpdf Hinst Hready.
  rewrite convert_pdf_to_images_unfold, Hpdf.
  destruct (ensure_dir_ok fs _ Hready) as (fs1 & Hrun & Hdir & Hother & _).
  rewrite (bind_ok _ _ fs _ fs1 Hrun), Hinst.
  exists fs1. split; [reflexivity|]. split; assumption.
Qed.

(** Up to the loop: the checks pass, the directory is made, the document
    is rendered. *)
Lemma convert_to_loop (fs : FS) (pdf_path : string)
    (poppler_path : option string) (output_dir : string) pages :
  node_at fs (abspath pdf_path) = Some (File (PdfFile pages)) ->
  pdf2image_installed = true ->
  poppler_found poppler_path = true ->
  dir_ready fs (abspath output_dir) = true ->
  exists fs1 : FS,
    convert_pdf_to_images pdf_path poppler_path output_dir fs
    = (counter <- for_each (map rendered pages) (fun page counter =>
                    save_png page (join (abspath output_dir)
                                        ("page_" +:+ pretty counter +:+ ".png")) ;;
                    ret (counter + 1)%Z) 1%Z ;;
       ret (counter - 1)%Z) fs1
    /\ node_at fs1 (abspath output_dir) = Some Dir
    /\ (forall q, ¬ q `prefix_of` abspath output_dir -> fs1 !! q = fs !! q)
    /\ (forall q, is_Some (fs !! q) -> fs1 !! q = fs !! q).
Proof.
  intros Hpdf Hinst Hpop Hready.
  rewrite convert_pdf_to_images_unfold, Hpdf. cbn [is_regular].
  destruct (ensure_dir_ok fs _ Hready) as (fs1 & Hrun1 & Hdir1 & Hother1 & Hkeep1).
  rewrite (bind_ok _ _ fs _ fs1 Hrun1), Hinst. cbn [negb].
  assert (Hconv : convert_from_path (abspath pdf_path) poppler_path fs1
                  = (Ok (map rendered pages), fs1)).
  { unfold convert_from_path. rewrite Hpop. cbn [negb].
    destruct (abspath pdf_path) as [|x p]; [discriminate|].
    cbn [node_at] in Hpdf |- *.
    rewrite Hkeep1 by (rewrite Hpdf; eauto). now rewrite Hpdf. }
  rewrite (bind_ok _ _ fs1 _ fs1 Hconv).
  exists fs1. repeat split; assumption.
Qed.

(** X4. There is no cleanup: when page number j cannot be written because
    a directory has its file name, the call raises [IsADirectoryError] and
    the pages before j stay on disk as [page_1.png] ... [page_<j-1>.png]. *)
Theorem convert_failure_leaves_earlier_pages (fs : FS) (pdf_path : string)
    (poppler_path : option string) (output_dir : string) before pg after :
  node_at fs (abspath pdf_path) = Some (File (PdfFile (before ++ pg :: after))) ->
  pdf2image_installed = true ->
  poppler_found poppler_path = true ->
  dir_ready fs (abspath output_dir) = true ->
  no_directory_at fs (page_paths (abspath output_dir) 1 (length before)) = true ->
  fs !! join (abspath output_dir) (page_name (Z.of_nat (length before) + 1))
  = Some Dir ->
  exists fs' : FS,
    convert_pdf_to_images pdf_path poppler_path output_dir fs
    = (Raise IsADirectoryError, fs')
    /\ (forall i p, before !! i = Some p ->
          fs' !! join (abspath output_dir) (page_name (Z.of_nat i + 1))
          = Some (File (ImageFile PNG (rendered p)))).
Proof.
  intros Hpdf Hinst Hpop Hready Hfree Hblock.
  set (d := abspath output_dir) in *.
  destruct (convert_to_loop fs pdf_path poppler_path output_dir _
              Hpdf Hinst Hpop Hready) as (fs1 & -> & Hdir1 & Hother1 & _).
  fold d in Hdir1, Hother1 |- *.
  destruct (save_pages_loop d (map rendered before) 1%Z fs1 Hdir1)
    as (fs2 & Hrun & Hpages & Hrest).
  { rewrite length_map. unfold no_directory_at in *.
    rewrite forallb_forall in *. intros q Hq.
    pose proof (Hfree q Hq) as Hfq.
    apply list_elem_of_In, elem_of_page_paths in Hq as (i & Hi & ->).
    rewrite node_at_join in *. rewrite Hother1; [exact Hfq|].
    apply join_not_prefix. }
  rewrite length_map in Hrun, Hrest.
  set (j := (1 + Z.of_nat (length before))%Z) in *.
  assert (Hblock2 : fs2 !! join d (page_name j) = Some Dir).
  { rewrite Hrest.
    - rewrite Hother1 by apply join_not_prefix.
      unfold j. now rewrite Z.add_comm.
    - rewrite elem_of_page_paths. intros (i & Hi & E).
      apply join_inj, page_name_inj in E. lia. }
  assert (Hdir2 : node_at fs2 d = Some Dir).
  { destruct d as [|x d'] eqn:Ed; [reflexivity|]. cbn [node_at] in Hdir1 |- *.
    rewrite Hrest; [exact Hdir1|].
    rewrite elem_of_page_paths. intros (i & _ & E).
    symmetry in E. now apply join_neq_dir in E. }
  exists fs2. split.
  - unfold bind at 1. rewrite map_app, for_each_app, Hrun.
    cbn [map for_each]. unfold bind at 1. unfold bind at 1.
    unfold save_png, OS.write_file.
    change ("page_" +:+ pretty j +:+ ".png") with (page_name j).
    destruct (join d (page_name j)) as [|x p] eqn:Ep.
    { unfold join in Ep. apply app_eq_nil in Ep as [_ Ep]. discriminate. }
    rewrite Hblock2, <- Ep, dirname_join, Hdir2. reflexivity.
  - intros i p Hp. rewrite Z.add_comm. apply Hpages.
    now rewrite list_lookup_fmap, Hp.
Qed.

End ConvertFailures.

(** On the sample file system, on the host without the package:
    [/home/u/pages] appears although nothing is converted. *)
Lemma convert_without_pdf2image_still_makes_directory_witness :
  exists fs' : FS,
    @convert_pdf_to_images Example.host_bare "doc.pdf" None "pages" Example.fs0
    = (Raise RuntimeError, fs')
    /\ node_at fs' ["home"; "u"; "pages"] = Some Dir
    /\ (forall q, ¬ q `prefix_of` ["home"; "u"; "pages"] ->
                  fs' !! q = Example.fs0 !! q).
Proof.
  apply (@convert_without_pdf2image_still_makes_directory Example.host_bare
           Example.fs0 "doc.pdf" None "pages").
  - vm_compute. reflexivity.
  - reflexivity.
  - vm_compute. reflexivity.
Defined.

(** On the sample file system with a directory named [page_2.png]: the
    first page is written, the second stops the call. *)
Lemma convert_failure_leaves_earlier_pages_witness :
  exists fs' : FS,
    @convert_pdf_to_images Example.host0 "doc.pdf" None "pages" Example.fs3
    = (Raise IsADirectoryError, fs')
    /\ (forall i p, [mkPage Example.photo 72] !! i = Some p ->
          fs' !! join ["home"; "u"; "pages"] (page_name (Z.of_nat i + 1))
          = Some (File (ImageFile PNG (@rendered Example.host0 p)))).
Proof.
  apply (@convert_failure_leaves_earlier_pages Example.host0 Example.fs3
           "doc.pdf" None "pages" [mkPage Example.photo 72]
           (mkPage Example.logo 72) [mkPage Example.ghost 72]).
  - vm_compute. reflexivity.
  - reflexivity.
  - reflexivity.
  - vm_compute. reflexivity.
  - vm_compute. reflexivity.
  - vm_compute. reflexivity.
Defined.

(** *** Running [convert_pdf_to_images] again *)

Section ConvertAgain.

Context `{Host}.

(** X5. Converting the same PDF into the same directory a second time
    returns the same page count and leaves the file system exactly as the
    first run left it, provided the PDF is not itself one of the page files
    (which the first run would have overwritten). *)
Theorem convert_again_changes_nothing (fs : FS) (pdf_path : string)
    (poppler_path : option string) (output_dir : string) pages :
  node_at fs (abspath pdf_path) = Some (File (PdfFile pages)) ->
  pdf2image_installed = true ->
  poppler_found poppler_path = true ->
  dir_ready fs (abspath output_dir) = true ->
  no_directory_at fs (page_paths (abspath output_dir) 1 (length pages)) = true ->
  abspath pdf_path ∉ page_paths (abspath output_dir) 1 (length pages) ->
  exists fs' : FS,
    convert_pdf_to_images pdf_path poppler_path output_dir fs
    = (Ok (Z.of_nat (length pages)), fs')
    /\ convert_pdf_to_images pdf_path poppler_path output_dir fs'
       = (Ok (Z.of_nat (length pages)), fs').
Proof.
  intros Hpdf Hinst Hpop Hready Hfree Hapart.
  set (d := abspath output_dir) in *.
  destruct (convert_to_loop fs pdf_path poppler_path output_dir _
              Hpdf Hinst Hpop Hready) as (fs1 & -> & Hdir1 & Hother1 & Hkeep1).
  fold d in Hdir1, Hother1 |- *.
  destruct (save_pages_loop d (map rendered pages) 1%Z fs1 Hdir1)
    as (fs' & Hrun & Hpages & Hrest).
  { rewrite length_map. unfold no_directory_at in *.
    rewrite forallb_forall in *. intros q Hq.
    pose proof (Hfree q Hq) as Hfq.
    apply list_elem_of_In, elem_of_page_paths in Hq as (i & Hi & ->).
    rewrite node_at_join in *. rewrite Hother1; [exact Hfq|].
    apply join_not_prefix. }
  rewrite length_map in Hrun, Hrest.
  assert (Hcount : (1 + Z.of_nat (length pages) - 1 = Z.of_nat (length pages))%Z)
    by lia.
  exists fs'. split.
  { rewrite (bind_ok _ _ fs1 _ fs' Hrun). unfold ret. now rewrite Hcount. }
  (* the state the second run starts from *)
  assert (Hdir' : node_at fs' d = Some Dir).
  { destruct d as [|x d'] eqn:Ed; [reflexivity|]. cbn [node_at] in Hdir1 |- *.
    rewrite Hrest; [exact Hdir1|].
    rewrite elem_of_page_paths. intros (i & _ & E).
    symmetry in E. now apply join_neq_dir in E. }
  assert (Hpdf' : node_at fs' (abspath pdf_path) = Some (File (PdfFile pages))).
  { destruct (abspath pdf_path) as [|x p] eqn:Ep; [discriminate|].
    cbn [node_at] in Hpdf |- *.
    rewrite Hrest by exact Hapart.
    rewrite Hkeep1 by (rewrite Hpdf; eauto). exact Hpdf. }
  assert (Hfiles : forall i page, map rendered pages !! i = Some page ->
            fs' !! join d (page_name (1 + Z.of_nat i)) = Some (File (ImageFile PNG page)))
    by exact Hpages.
  rewrite convert_pdf_to_images_unfold, Hpdf'. cbn [is_regular]. fold d.
  rewrite (bind_ok _ _ fs' _ fs' (ensure_dir_existing fs' d
             ltac:(now rewrite Hdir'))), Hinst.
  cbn [negb].
  assert (Hconv : convert_from_path (abspath pdf_path) poppler_path fs'
                  = (Ok (map rendered pages), fs')).
  { unfold convert_from_path. now rewrite Hpop, Hpdf'. }
  rewrite (bind_ok _ _ fs' _ fs' Hconv).
  destruct (save_pages_loop d (map rendered pages) 1%Z fs' Hdir')
    as (fs'' & Hrun2 & Hpages2 & Hrest2).
  { rewrite length_map. unfold no_directory_at.
    apply forallb_forall. intros q Hq.
    apply list_elem_of_In, elem_of_page_paths in Hq as (i & Hi & ->).
    destruct (lookup_lt_is_Some_2 (map rendered pages) i) as [page Hpage];
      [now rewrite length_map|].
    rewrite node_at_join, (Hfiles i page Hpage). reflexivity. }
  rewrite length_map in Hrun2, Hrest2.
  rewrite (bind_ok _ _ fs' _ fs'' Hrun2). unfold ret. rewrite Hcount.
  f_equal. apply map_eq. intros q.
  destruct (decide (q ∈ page_paths d 1 (length pages))) as [Hin|Hout].
  - apply elem_of_page_paths in Hin as (i & Hi & ->).
    destruct (lookup_lt_is_Some_2 (map rendered pages) i) as [page Hpage];
      [now rewrite length_map|].
    now rewrite (Hpages2 i page Hpage), (Hfiles i page Hpage).
  - now apply Hrest2.
Qed.

End ConvertAgain.

(** On the sample file system. *)
Lemma convert_again_changes_nothing_witness :
  exists fs' : FS,
    @convert_pdf_to_images Example.host0 "doc.pdf" None "pages" Example.fs0
    = (Ok 3%Z, fs')
    /\ @convert_pdf_to_images Example.host0 "doc.pdf" None "pages" fs'
       = (Ok 3%Z, fs').
Proof.
  apply (@convert_again_changes_nothing Example.host0 Example.fs0 "doc.pdf" None
           "pages"
           [mkPage Example.photo 72; mkPage Example.logo 72; mkPage Example.ghost 72]).
  - vm_compute. reflexivity.
  - reflexivity.
  - reflexivity.
  - vm_compute. reflexivity.
  - vm_compute. reflexivity.
  - apply (bool_decide_unpack _). vm_compute. exact I.
Defined.

(** *** Selection and page order *)

Lemma filter_perm {A} (f : A -> bool) (l1 l2 : list A) :
  l1 ≡ₚ l2 -> List.filter f l1 ≡ₚ List.filter f l2.
Proof.
  induction 1 as [|x l1 l2 _ IH|x y l|l1 l2 l3 _ IH1 _ IH2]; simpl.
  - reflexivity.
  - destruct (f x); [now constructor|exact IH].
  - destruct (f x), (f y); try reflexivity. apply perm_swap.
  - now transitivity (List.filter f l2).
Qed.

(** Sorting forgets the order it was given. *)
Lemma sort_perm_eq (l1 l2 : list string) :
  l1 ≡ₚ l2 -> PyStr.sort l1 = PyStr.sort l2.
Proof.
  intros Hperm. apply (Sorted_unique String.le).
  - apply sort_sorted.
  - apply sort_sorted.
  - now rewrite !sort_perm.
Qed.

(** X6. The page order does not depend on the order in which the
    directory is enumerated: two listings with the same names, in any
    order, give the same sorted selection. *)
Theorem page_order_independent_of_listing (entries1 entries2 exts : list string) :
  entries1 ≡ₚ entries2 ->
  PyStr.sort (select entries1 exts) = PyStr.sort (select entries2 exts).
Proof.
  intros Hperm. apply sort_perm_eq. unfold select. now apply filter_perm.
Qed.

(** Two enumerations of the sample directory. *)
Lemma page_order_independent_of_listing_witness :
  PyStr.sort (select ["notes.txt"; "b.PNG"; "a.jpg"] Example.exts0)
  = PyStr.sort (select ["a.jpg"; "notes.txt"; "b.PNG"] Example.exts0).
Proof.
  apply (page_order_independent_of_listing ["notes.txt"; "b.PNG"; "a.jpg"]
           ["a.jpg"; "notes.txt"; "b.PNG"] Example.exts0).
  apply (bool_decide_unpack _). vm_compute. exact I.
Defined.

Lemma string_app_cons a (s t : string) : String a s +:+ t = String a (s +:+ t).
Proof. reflexivity. Qed.

Lemma substring_all (s : string) : String.substring 0 (String.length s) s = s.
Proof. induction s as [|a s IH]; simpl; [reflexivity|now rewrite IH]. Qed.

Lemma substring_split (s : string) : forall m, (m <= String.length s)%nat ->
  s = String.substring 0 m s +:+ String.substring m (String.length s - m) s.
Proof.
  induction s as [|a s IH]; intros m Hm.
  - simpl in Hm. assert (m = 0%nat) as -> by lia. reflexivity.
  - destruct m as [|m].
    + change (String.substring 0 0 (String a s)) with EmptyString.
      rewrite Nat.sub_0_r, substring_all. reflexivity.
    + simpl in Hm. cbn [String.substring String.length Nat.sub].
      rewrite string_app_cons. f_equal. apply IH. lia.
Qed.

Lemma substring_skip (pre t : string) m :
  String.substring (String.length pre) m (pre +:+ t) = String.substring 0 m t.
Proof.
  induction pre as [|a pre IH]; [reflexivity|].
  rewrite string_app_cons. cbn [String.length String.substring]. exact IH.
Qed.

(** [endswith] is the suffix test. *)
Lemma endswith_spec (s suffix : string) :
  PyStr.endswith s suffix = true <-> exists pre, s = pre +:+ suffix.
Proof.
  unfold PyStr.endswith. rewrite andb_true_iff, Nat.leb_le, String.eqb_eq. split.
  - intros [Hle Hsub].
    exists (String.substring 0 (String.length s - String.length suffix) s).
    pose proof (substring_split s (String.length s - String.length suffix)
                  ltac:(lia)) as Hs.
    replace (String.length s - (String.length s - String.length suffix))%nat
      with (String.length suffix) in Hs by lia.
    now rewrite Hsub in Hs.
  - intros [pre ->]. rewrite string_length_app. split; [lia|].
    replace (String.length pre + String.length suffix - String.length suffix)%nat
      with (String.length pre) by lia.
    rewrite substring_skip. apply substring_all.
Qed.

(** X7. What line 58 selects, in terms of the names: an entry is selected
    exactly when its lower-cased name is some text followed by one of the
    extensions as supplied. *)
Theorem select_iff_lowercased_name_has_suffix (entries exts : list string)
    (f : string) :
  f ∈ select entries exts
  <-> f ∈ entries
      /\ exists e pre, e ∈ exts /\ PyStr.lower f = pre +:+ e.
Proof.
  unfold select, PyStr.endswith_any.
  rewrite !list_elem_of_In, filter_In, existsb_exists.
  split; intros [Hin Hex]; (split; [exact Hin|]).
  - destruct Hex as (e & He & Hends). apply endswith_spec in Hends as [pre Hpre].
    exists e, pre. split; [now apply list_elem_of_In|exact Hpre].
  - destruct Hex as (e & pre & He & Hpre). exists e.
    split; [now apply list_elem_of_In|]. apply endswith_spec. eauto.
Qed.

(** *** Normalization *)

Lemma normalize_shape im :
  exists px inf, normalize im = PIL.mkImage (PIL.size im) (PIL.RGB px) inf.
Proof.
  unfold normalize, PIL.paste, PIL.convert_RGB.
  destruct (_ || _); [destruct (_ =? _)%string|]; simpl; eauto.
Qed.

(** X8. Normalization keeps the size of the image, and normalizing a
    normalized image changes nothing. *)
Theorem normalize_keeps_size_and_is_idempotent (im : PIL.Image) :
  PIL.size (normalize im) = PIL.size im
  /\ normalize (normalize im) = normalize im.
Proof.
  destruct (normalize_shape im) as (px & inf & ->). split; reflexivity.
Qed.

Lemma blend8_range a o i :
  byte_ok a = true -> byte_ok o = true -> byte_ok i = true ->
  byte_ok (PIL.blend8 a o i) = true.
Proof.
  unfold byte_ok. rewrite !andb_true_iff, !Z.leb_le.
  intros Ha Ho Hi. unfold PIL.blend8. cbv zeta.
  rewrite !Z.shiftr_div_pow2 by lia. change (2 ^ 8)%Z with 256%Z.
  assert (H1 : (0 <= o * (255 - a) <= 255 * (255 - a))%Z) by nia.
  assert (H2 : (0 <= i * a <= 255 * a)%Z) by nia.
  set (t := (o * (255 - a) + i * a + 128)%Z).
  assert (Ht : (128 <= t <= 65153)%Z) by (unfold t; lia).
  clearbody t.
  assert (Hq : (0 <= t / 256 <= 254)%Z).
  { split; [apply Z.div_pos; lia|].
    apply Z.lt_succ_r, Z.div_lt_upper_bound; lia. }
  split; [apply Z.div_pos; lia|].
  apply Z.lt_succ_r, Z.div_lt_upper_bound; lia.
Qed.

Lemma blend_rgb_range a o i :
  byte_ok a = true -> rgb_ok o = true -> rgb_ok i = true ->
  rgb_ok (PIL.blend_rgb a o i) = true.
Proof.
  destruct o as [[r0 g0] b0], i as [[r1 g1] b1].
  unfold rgb_ok, PIL.blend_rgb. cbn [fst snd].
  rewrite !andb_true_iff. intros Ha [[? ?] ?] [[? ?] ?].
  repeat split; now apply blend8_range.
Qed.

Lemma to_rgb_range d : bands_ok d = true -> forallb rgb_ok (PIL.to_rgb d) = true.
Proof.
  destruct d as [px|px|pal px|px|px|m px]; simpl; intros Hok;
    try exact Hok; rewrite forallb_forall in *; intros c Hc;
    apply in_map_iff in Hc as (x & <- & Hx).
  - specialize (Hok x Hx). unfold rgb_ok. simpl. now rewrite Hok.
  - specialize (Hok x Hx). apply andb_true_iff in Hok as [Hl _].
    unfold rgb_ok. simpl. now rewrite Hl.
  - destruct (nth_in_or_default (Z.to_nat x) pal (0, 0, 0)%Z) as [Hin| ->];
      [now apply Hok|reflexivity].
  - specialize (Hok x Hx). now apply andb_true_iff in Hok as [Hc _].
Qed.

Lemma masked_paste_range (px : list (PIL.rgb * Z)) : forall n,
  forallb (fun ca => rgb_ok (fst ca) && byte_ok (snd ca)) px = true ->
  forallb rgb_ok
    (zip_with (fun os a => PIL.blend_rgb a (fst os) (snd os))
       (zip_with pair (repeat PIL.white n) (map fst px)) (map snd px)) = true.
Proof.
  induction px as [|[c a] px IH]; intros n Hok.
  - now destruct n.
  - cbn [forallb fst snd] in Hok. apply andb_true_iff in Hok as [Hca Hrest].
    apply andb_true_iff in Hca as [Hc Ha].
    destruct n as [|n]; [reflexivity|].
    cbn [repeat map zip_with forallb fst snd].
    apply andb_true_iff. split; [|now apply IH].
    now apply blend_rgb_range.
Qed.

Lemma whole_paste_range (src : list PIL.rgb) : forall n,
  forallb rgb_ok src = true ->
  forallb rgb_ok (zip_with (fun _ s => s) (repeat PIL.white n) src) = true.
Proof.
  induction src as [|c src IH]; intros n Hok.
  - now destruct n.
  - cbn [forallb] in Hok. apply andb_true_iff in Hok as [Hc Hrest].
    destruct n as [|n]; [reflexivity|].
    cbn [repeat zip_with forallb]. rewrite Hc. now apply IH.
Qed.

(** X9. Normalization stays within bytes: if every band value (and palette
    entry) of the image is between 0 and 255, so is every channel of every
    pixel of the normalized image, also where pixels are mixed with the
    white background. *)
Theorem normalize_stays_within_bytes (im : PIL.Image) :
  bands_ok (PIL.data im) = true ->
  bands_ok (PIL.data (normalize im)) = true.
Proof.
  intros Hok. pose proof (to_rgb_range _ Hok) as Hrgb.
  unfold normalize, PIL.paste, PIL.convert_RGB.
  destruct (_ || _); [destruct (PIL.mode im =? "RGBA")%string eqn:Emode|];
    cbn [PIL.data bands_ok]; [| |exact Hrgb].
  - (* pasted through the alpha band *)
    destruct im as [sz d inf]. unfold PIL.mode in Emode.
    cbn [PIL.data PIL.size] in *.
    destruct d as [px|px|pal px|px|px|m px]; try discriminate Emode;
      [|destruct m; discriminate Emode].
    cbn [PIL.split PIL.data nth PIL.mask_values PIL.to_rgb PIL.new_RGB PIL.size].
    now apply masked_paste_range.
  - (* pasted whole *)
    cbn [PIL.new_RGB PIL.data PIL.to_rgb].
    now apply whole_paste_range.
Qed.

(** On the sample images. *)
Lemma normalize_stays_within_bytes_witness :
  bands_ok (PIL.data (normalize Example.logo)) = true.
Proof.
  apply (normalize_stays_within_bytes Example.logo).
  vm_compute. reflexivity.
Defined.

(** X10. An ["RGBA"] image is flattened by its alpha band, pixel by
    pixel: where the alpha value is 255 the page keeps the colour, where it
    is 0 the page is white. *)
Theorem normalize_RGBA_pixel sz px inf i c a :
  length px = Z.to_nat (fst sz * snd sz) ->
  px !! i = Some (c, a) ->
  rgb_ok c = true ->
  (a = 255%Z ->
   PIL.to_rgb (PIL.data (normalize (PIL.mkImage sz (PIL.RGBA px) inf))) !! i = Some c)
  /\ (a = 0%Z ->
      PIL.to_rgb (PIL.data (normalize (PIL.mkImage sz (PIL.RGBA px) inf))) !! i
      = Some PIL.white).
Proof.
  intros Hlen Hpx Hc. rewrite (normalize_RGBA sz px inf Hlen).
  cbn [PIL.data PIL.to_rgb composited_over_white].
  rewrite list_lookup_fmap, Hpx. cbn [fmap option_fmap option_map fst snd].
  destruct c as [[r g] b]. unfold rgb_ok, byte_ok in Hc. cbn [fst snd] in Hc.
  rewrite !andb_true_iff, !Z.leb_le in Hc. destruct Hc as [[Hr Hg] Hb].
  unfold PIL.blend_rgb, PIL.white.
  split; intros ->.
  - now rewrite (proj1 (blend8_ends r Hr 255)), (proj1 (blend8_ends g Hg 255)),
      (proj1 (blend8_ends b Hb 255)).
  - now rewrite (proj2 (blend8_ends 255 ltac:(lia) r)),
      (proj2 (blend8_ends 255 ltac:(lia) g)), (proj2 (blend8_ends 255 ltac:(lia) b)).
Qed.

(** On the sample logo, whose only pixel is fully transparent. *)
Lemma normalize_RGBA_pixel_witness :
  (0 = 255 ->
   PIL.to_rgb (PIL.data (normalize Example.logo)) !! 0%nat = Some (10, 20, 30))%Z
  /\ (0 = 0 ->
      PIL.to_rgb (PIL.data (normalize Example.logo)) !! 0%nat = Some PIL.white)%Z.
Proof.
  apply (normalize_RGBA_pixel (1, 1)%Z [((10, 20, 30), 0)%Z] [] 0%nat
           (10, 20, 30)%Z 0%Z).
  - reflexivity.
  - reflexivity.
  - reflexivity.
Defined.

(** *** The handlers *)

Lemma split_no_sep sep (p : string) :
  PyStr.contains sep p = false -> PyStr.split sep p = [p].
Proof.
  induction p as [|c p IH]; [reflexivity|]. simpl.
  destruct (Ascii.eqb c sep); [discriminate|]. simpl.
  intros Hp. now rewrite (IH Hp).
Qed.

Lemma split_app_sep sep (p t : string) :
  PyStr.contains sep p = false ->
  PyStr.split sep (p +:+ String sep t) = p :: PyStr.split sep t.
Proof.
  induction p as [|c p IH]; intros Hp.
  - change (EmptyString +:+ String sep t) with (String sep t). simpl.
    now rewrite Ascii.eqb_refl.
  - rewrite string_app_cons. simpl in Hp |- *.
    destruct (Ascii.eqb c sep); [discriminate|]. simpl in Hp.
    now rewrite (IH Hp).
Qed.

Lemma split_join_inverse (picked : list string) :
  (0 < length picked)%nat ->
  forallb (fun f => negb (PyStr.contains ";" f)) picked = true ->
  PyStr.split ";" (PyStr.join ";" picked) = picked.
Proof.
  intros Hne Hclean.
  destruct picked as [|p rest]; [simpl in Hne; lia|]. clear Hne.
  revert p Hclean. induction rest as [|q rest IH]; intros p Hclean.
  - simpl in Hclean. rewrite andb_true_r in Hclean.
    apply negb_true_iff in Hclean. now apply split_no_sep.
  - cbn [forallb] in Hclean. apply andb_true_iff in Hclean as [Hp Hrest].
    apply negb_true_iff in Hp.
    change (PyStr.join ";" (p :: q :: rest))
      with (p +:+ String ";" (PyStr.join ";" (q :: rest))).
    rewrite (split_app_sep _ _ _ Hp). f_equal. now apply IH.
Qed.

(** X11. What [browse_images_files] writes into the entry, the worker
    reads back: joining the picked names with semicolons and splitting at
    semicolons returns the picked names, in order, as long as something was
    picked and no name contains a semicolon. *)
Theorem split_join_picked_files (picked : list string) (old_entry : string) :
  (0 < length picked)%nat ->
  forallb (fun f => negb (PyStr.contains ";" f)) picked = true ->
  PyStr.split ";" (browse_images_files picked old_entry) = picked.
Proof.
  intros Hne Hclean.
  rewrite <- (split_join_inverse picked Hne Hclean) at 2.
  destruct picked; [simpl in Hne; lia|reflexivity].
Qed.

(** Two picked files. *)
Lemma split_join_picked_files_witness :
  PyStr.split ";" (browse_images_files ["/home/u/pics/b.PNG"; "/home/u/pics/a.jpg"]
                     EmptyString)
  = ["/home/u/pics/b.PNG"; "/home/u/pics/a.jpg"].
Proof.
  apply (split_join_picked_files ["/home/u/pics/b.PNG"; "/home/u/pics/a.jpg"]
           EmptyString).
  - vm_compute. lia.
  - vm_compute. reflexivity.
Defined.

Lemma lstrip_all_space (s : string) :
  PyStr.all_space s = true -> PyStr.lstrip s = EmptyString.
Proof.
  induction s as [|c s IH]; [reflexivity|]. simpl.
  destruct (PyStr.is_space c); [exact IH|discriminate].
Qed.

Lemma rstrip_empty_iff (s : string) :
  PyStr.rstrip s = EmptyString <-> PyStr.all_space s = true.
Proof.
  induction s as [|c s IH]; [easy|]. simpl.
  destruct (PyStr.rstrip s) as [|c' t] eqn:E.
  - destruct (PyStr.is_space c); simpl; [|easy].
    split; intros _; [now apply IH|reflexivity].
  - split; [discriminate|]. intros Hall.
    apply andb_true_iff in Hall as [_ Hall]. apply IH in Hall. discriminate.
Qed.

Lemma all_space_lstrip (s : string) :
  PyStr.all_space (PyStr.lstrip s) = PyStr.all_space s.
Proof.
  induction s as [|c s IH]; [reflexivity|]. simpl.
  destruct (PyStr.is_space c) eqn:Ec; [exact IH|]. simpl. now rewrite Ec.
Qed.

(** [strip] leaves nothing exactly of the blank strings. *)
Lemma strip_empty_iff (s : string) :
  PyStr.strip s = EmptyString <-> PyStr.all_space s = true.
Proof. unfold PyStr.strip. now rewrite rstrip_empty_iff, all_space_lstrip. Qed.

Section HandlerFacts.

Context `{Host}.

(** X12. Both handlers start a job exactly when neither required field is
    blank (empty or white space only): the PDF and the output folder for
    [start_pdf_to_images], the input and the output PDF for
    [start_images_to_pdf].  The Poppler field may be blank. *)
Theorem handlers_start_iff_fields_not_blank (first poppler second : string) :
  ((exists job, start_pdf_to_images first poppler second = Started job)
   <-> PyStr.all_space first = false /\ PyStr.all_space second = false)
  /\ ((exists job, start_images_to_pdf first second = Started job)
      <-> PyStr.all_space first = false /\ PyStr.all_space second = false).
Proof.
  assert (Hblank : forall s, (PyStr.strip s =? EmptyString)%string = PyStr.all_space s).
  { intros s. destruct (String.eqb_spec (PyStr.strip s) EmptyString) as [E|E].
    - symmetry. now apply strip_empty_iff.
    - destruct (PyStr.all_space s) eqn:A; [|reflexivity].
      exfalso. apply E. now apply strip_empty_iff. }
  unfold start_pdf_to_images, start_images_to_pdf. cbv zeta.
  rewrite !Hblank.
  destruct (PyStr.all_space first), (PyStr.all_space second);
    (split; split;
     [ intros [job Hjob]; first [discriminate Hjob | split; reflexivity]
     | intros [H1 H2]; first [discriminate H1 | discriminate H2
                              | eexists; reflexivity]
     | intros [job Hjob]; first [discriminate Hjob | split; reflexivity]
     | intros [H1 H2]; first [discriminate H1 | discriminate H2
                              | eexists; reflexivity] ]).
Qed.

(** The list comprehension of line 282 keeps the existing regular files,
    in order, and reads only. *)
Lemma isfile_filter_loop (files kept : list string) (fs : FS) :
  for_each files (fun f kept =>
                    is_file <- OS.isfile (abspath f) ;;
                    ret (if is_file then kept ++ [f] else kept)) kept fs
  = (Ok (kept ++ List.filter (fun f => is_regular (node_at fs (abspath f))) files), fs).
Proof.
  revert kept. induction files as [|f files IH]; intros kept.
  - simpl. now rewrite app_nil_r.
  - cbn [for_each List.filter].
    rewrite (bind_ok _ _ fs
               (if is_regular (node_at fs (abspath f)) then kept ++ [f] else kept) fs).
    + rewrite IH. destruct (is_regular _); [now rewrite <- app_assoc|reflexivity].
    + now rewrite (bind_ok _ _ fs _ fs (isfile_run _ fs)).
Qed.

(** X13. From the file dialog to the combiner: after [browse_images_files]
    has put the picked names into the entry, [start_images_to_pdf] starts a
    job which, when the entry does not name a directory, hands to
    [images_to_pdf_from_files] exactly the picked names that are existing
    regular files, in the order picked (names that do not exist are dropped
    without notice), and raises [FileNotFoundError] with nothing written
    when none exists.  The names must be non-empty and free of semicolons,
    and the joined text must not begin or end with white space. *)
Theorem picked_files_reach_the_combiner (fs : FS) (picked : list string)
    (old_entry output_pdf_entry : string) :
  (0 < length picked)%nat ->
  forallb (fun f => negb (PyStr.contains ";" f) && negb (f =? EmptyString)%string)
          picked = true ->
  PyStr.strip (PyStr.join ";" picked) = PyStr.join ";" picked ->
  PyStr.all_space output_pdf_entry = false ->
  is_directory (node_at fs (abspath (PyStr.join ";" picked))) = false ->
  exists job,
    start_images_to_pdf (browse_images_files picked old_entry) output_pdf_entry
    = Started job
    /\ job fs
       = match List.filter (fun f => is_regular (node_at fs (abspath f))) picked with
         | [] => (Raise FileNotFoundError, fs)
         | files => images_to_pdf_from_files files (PyStr.strip output_pdf_entry) fs
         end.
Proof.
  intros Hne Hclean Hstrip Hout Hnodir.
  assert (Hsemi : forallb (fun f => negb (PyStr.contains ";" f)) picked = true).
  { rewrite forallb_forall in *. intros f Hf.
    now destruct (proj1 (andb_true_iff _ _) (Hclean f Hf)). }
  assert (Hnonempty : List.filter (fun p => negb (p =? EmptyString)%string) picked
                      = picked).
  { clear -Hclean. induction picked as [|p ps IH]; [reflexivity|].
    cbn [forallb] in Hclean. apply andb_true_iff in Hclean as [Hp Hps].
    apply andb_true_iff in Hp as [_ Hp]. cbn [List.filter]. rewrite Hp.
    f_equal. now apply IH. }
  pose proof (split_join_inverse picked Hne Hsemi) as Hsplit.
  assert (Hentry : browse_images_files picked old_entry = PyStr.join ";" picked).
  { destruct picked; [simpl in Hne; lia|reflexivity]. }
  rewrite Hentry. clear Hentry.
  assert (Hjoined : PyStr.all_space (PyStr.join ";" picked) = false).
  { apply not_true_iff_false. intros Hall. apply strip_empty_iff in Hall.
    rewrite Hstrip in Hall. rewrite Hall in Hsplit.
    cbn [PyStr.split] in Hsplit. rewrite <- Hsplit in Hclean.
    discriminate Hclean. }
  unfold start_images_to_pdf.
  destruct (String.eqb_spec (PyStr.strip (PyStr.join ";" picked)) EmptyString)
    as [E|_]; [apply strip_empty_iff in E; congruence|].
  destruct (String.eqb_spec (PyStr.strip output_pdf_entry) EmptyString)
    as [E|_]; [apply strip_empty_iff in E; congruence|].
  eexists. split; [reflexivity|].
  rewrite Hstrip. unfold images_to_pdf_worker.
  rewrite (bind_ok _ _ fs _ fs (isdir_run _ fs)), Hnodir.
  rewrite Hsplit, Hnonempty.
  rewrite (bind_ok _ _ fs _ fs (isfile_filter_loop picked [] fs)).
  cbn [app].
  destruct (List.filter (fun f => is_regular (node_at fs (abspath f))) picked);
    reflexivity.
Qed.

End HandlerFacts.

(** On the sample file system: of three picked names, the one that does
    not exist is dropped. *)
Lemma picked_files_reach_the_combiner_witness :
  exists job,
    @start_images_to_pdf Example.host0
      (browse_images_files
         ["/home/u/pics/b.PNG"; "/home/u/gone.png"; "/home/u/pics/a.jpg"] "old")
      " album.pdf "
    = Started job
    /\ job Example.fs0
       = @images_to_pdf_from_files Example.host0
           ["/home/u/pics/b.PNG"; "/home/u/pics/a.jpg"] "album.pdf" Example.fs0.
Proof.
  apply (@picked_files_reach_the_combiner Example.host0 Example.fs0
           ["/home/u/pics/b.PNG"; "/home/u/gone.png"; "/home/u/pics/a.jpg"]
           "old" " album.pdf ").
  - vm_compute. lia.
  - vm_compute. reflexivity.
  - vm_compute. reflexivity.
  - vm_compute. reflexivity.
  - vm_compute. reflexivity.
Defined.

(** *** Running a combiner again *)

Lemma dirname_neq (p : path) : p <> [] -> dirname p <> p.
Proof.
  intros Hp E. apply (f_equal length) in E. unfold dirname in E.
  rewrite (app_removelast_last EmptyString Hp) in E at 2.
  rewrite length_app in E. simpl in E. lia.
Qed.

Lemma dirname_prefix (p : path) : dirname p `prefix_of` p.
Proof.
  destruct p as [|x p]; [now exists []|].
  exists [List.last (x :: p) EmptyString]. now apply app_removelast_last.
Qed.

Lemma component_below_spec d p n :
  component_below d p = Some n <-> join d n `prefix_of` p.
Proof.
  unfold join. revert p. induction d as [|x d IH]; intros p; simpl.
  - destruct p as [|y p]; split.
    + discriminate.
    + intros [k E]. discriminate.
    + intros [= ->]. now exists p.
    + intros [k E]. simpl in E. congruence.
  - destruct p as [|y p]; [split; [discriminate|intros [k E]; discriminate]|].
    destruct (String.eqb_spec x y) as [->|Hne].
    + rewrite IH. split; intros [k E]; exists k; simpl in *; congruence.
    + split; [discriminate|]. intros [k E]. simpl in E. congruence.
Qed.

Lemma NoDup_entries (fs : FS) d : NoDup (OS.entries fs d).
Proof.
  unfold OS.entries.
  pose proof (NoDup_fst_map_to_list fs) as Hnd.
  change ((map_to_list fs).*1) with (map fst (map_to_list fs)) in Hnd.
  induction Hnd as [|k ks Hk _ IH]; simpl; [constructor|].
  destruct (OS.child_name d k) as [n|] eqn:E; [|exact IH].
  constructor; [|exact IH].
  rewrite list_elem_of_omap. intros (k' & Hk' & E').
  apply child_name_spec in E, E'. congruence.
Qed.

Lemma NoDup_list_filter {A} (f : A -> bool) (l : list A) :
  NoDup l -> NoDup (List.filter f l).
Proof.
  induction 1 as [|x l Hx _ IH]; simpl; [constructor|].
  destruct (f x); [|exact IH]. constructor; [|exact IH].
  rewrite list_elem_of_In, filter_In, <- list_elem_of_In. tauto.
Qed.

(** Decoding looks only at the files it opens. *)
Lemma open_all_agree (fs fs' : FS) ps ims :
  open_all fs ps = Ok ims ->
  (forall q, q ∈ ps -> is_Some (fs !! q) -> fs' !! q = fs !! q) ->
  open_all fs' ps = Ok ims.
Proof.
  revert ims. induction ps as [|p ps IH]; intros ims; simpl; [easy|].
  intros Hopen Hsame.
  assert (Hp : fst (Image_open p fs') = fst (Image_open p fs)).
  { unfold Image_open in *. destruct p as [|x p]; [reflexivity|].
    cbn [node_at] in *.
    destruct (fs !! (x :: p)) as [nd|] eqn:E; [|discriminate].
    rewrite (Hsame (x :: p)), E; [|now left|rewrite E; eauto].
    destruct nd as [[fmt im|pages| ]| ]; reflexivity. }
  rewrite Hp. destruct (fst (Image_open p fs)) as [im|]; [|discriminate].
  destruct (open_all fs ps) as [ims0|] eqn:E0; [|discriminate].
  rewrite (IH ims0 eq_refl); [exact Hopen|].
  intros q Hq. apply Hsame. now right.
Qed.

Section CombineAgain.

Context `{Host}.

(** What the common tail leaves behind, exactly. *)
Lemma emit_exact (fs : FS) (out : string) ims :
  ims <> [] ->
  writable fs (abspath out) = true ->
  forallb PIL.pdf_encodable ims = true ->
  exists fs1 : FS,
    emit out ims fs
    = (Ok (abspath out),
       <[abspath out := File (PdfFile (map (fun im => mkPage im 100) ims))]> fs1)
    /\ abspath out <> []
    /\ node_at fs1 (dirname (abspath out)) = Some Dir
    /\ (forall q, ¬ q `prefix_of` dirname (abspath out) -> fs1 !! q = fs !! q)
    /\ (forall q, is_Some (fs !! q) -> fs1 !! q = fs !! q).
Proof.
  intros Hne Hw Henc. unfold emit, writable in *.
  apply andb_true_iff in Hw as [Hready Hnotdir].
  apply negb_true_iff in Hnotdir.
  set (p := abspath out) in *.
  destruct (ensure_dir_ok fs (dirname p) Hready)
    as (fs1 & Hrun & Hdir & Hother & Hkeep).
  rewrite (bind_ok _ _ fs _ fs1 Hrun).
  destruct ims as [|first rest]; [congruence|].
  assert (Hp : p <> []) by (intros E; now rewrite E in Hnotdir).
  assert (Hnotdir1 : is_directory (node_at fs1 p) = false).
  { destruct p as [|x p']; [congruence|]. cbn [node_at] in Hnotdir |- *.
    destruct (fs !! (x :: p')) as [nd|] eqn:E.
    - rewrite Hkeep, E by (rewrite E; eauto). exact Hnotdir.
    - rewrite Hother, E; [reflexivity|].
      intros Hpre. apply (dirname_neq (x :: p') Hp).
      apply (anti_symm prefix); [apply dirname_prefix|exact Hpre]. }
  unfold save_pdf. rewrite Henc.
  rewrite (bind_ok _ _ fs1 _ _ (write_file_ok fs1 p _ Hdir Hnotdir1)).
  exists fs1. repeat split; assumption.
Qed.

(** Once written, writing the same document again changes nothing. *)
Lemma emit_again (fs1 : FS) (out : string) ims :
  ims <> [] ->
  abspath out <> [] ->
  node_at fs1 (dirname (abspath out)) = Some Dir ->
  forallb PIL.pdf_encodable ims = true ->
  emit out ims
    (<[abspath out := File (PdfFile (map (fun im => mkPage im 100) ims))]> fs1)
  = (Ok (abspath out),
     <[abspath out := File (PdfFile (map (fun im => mkPage im 100) ims))]> fs1).
Proof.
  intros Hne Hp Hdir Henc. unfold emit.
  set (p := abspath out) in *.
  set (fs' := <[p := File (PdfFile (map (fun im => mkPage im 100) ims))]> fs1).
  assert (Hdir' : node_at fs' (dirname p) = Some Dir).
  { destruct (dirname p) as [|x d] eqn:Ed; [reflexivity|].
    cbn [node_at] in Hdir |- *. unfold fs'.
    rewrite lookup_insert_ne; [exact Hdir|].
    rewrite <- Ed. intros E. symmetry in E. now apply dirname_neq in E. }
  rewrite (bind_ok _ _ fs' _ fs' (ensure_dir_existing fs' (dirname p)
             ltac:(now rewrite Hdir'))).
  destruct ims as [|first rest]; [congruence|].
  unfold save_pdf. rewrite Henc.
  assert (Hfile : is_directory (node_at fs' p) = false).
  { destruct p as [|x p'] eqn:Ep; [congruence|]. cbn [node_at]. unfold fs'.
    now rewrite lookup_insert_eq. }
  rewrite (bind_ok _ _ fs' _ _ (write_file_ok fs' p _ Hdir' Hfile)).
  unfold ret, fs'. now rewrite insert_insert_eq.
Qed.

(** X14. Running [images_to_pdf_from_files] a second time with the same
    arguments returns the same path and leaves the file system exactly as
    the first run left it, provided the output is not one of the inputs. *)
Theorem images_to_pdf_from_files_again_changes_nothing (fs : FS)
    (file_paths : list string) (output_pdf : string) ims :
  (0 < length file_paths)%nat ->
  open_all fs (map abspath file_paths) = Ok ims ->
  writable fs (abspath output_pdf) = true ->
  abspath output_pdf ∉ map abspath file_paths ->
  exists fs' : FS,
    images_to_pdf_from_files file_paths output_pdf fs = (Ok (abspath output_pdf), fs')
    /\ images_to_pdf_from_files file_paths output_pdf fs'
       = (Ok (abspath output_pdf), fs').
Proof.
  intros Hsome Hopen Hw Hapart.
  assert (Hims : map normalize ims <> []).
  { apply open_all_length in Hopen. rewrite length_map in Hopen.
    destruct ims; [simpl in Hopen; lia|discriminate]. }
  destruct (emit_exact fs output_pdf (map normalize ims) Hims Hw
              (normalize_encodable ims))
    as (fs1 & Hrun & Hp & Hdir & _ & Hkeep).
  eexists. split.
  - rewrite images_to_pdf_from_files_unfold, Hopen.
    destruct file_paths; [simpl in Hsome; lia|exact Hrun].
  - rewrite images_to_pdf_from_files_unfold.
    rewrite (open_all_agree fs _ _ ims Hopen).
    + destruct file_paths; [simpl in Hsome; lia|].
      apply emit_again; [exact Hims|exact Hp|exact Hdir|apply normalize_encodable].
    + intros q Hq Hex. rewrite lookup_insert_ne by (intros <-; contradiction).
      now apply Hkeep.
Qed.

(** X15. The same for [images_to_pdf]: a second run with the same
    arguments returns the same path and leaves the file system exactly as
    the first run left it, provided the output neither is nor lies below an
    entry of the input directory that the selection would pick. *)
Theorem images_to_pdf_again_changes_nothing (fs : FS)
    (images_dir output_pdf : string) (exts : list string) ims :
  is_directory (node_at fs (abspath images_dir)) = true ->
  (0 < length (select (OS.entries fs (abspath images_dir)) exts))%nat ->
  open_all fs (map (join (abspath images_dir))
                   (PyStr.sort (select (OS.entries fs (abspath images_dir)) exts)))
  = Ok ims ->
  writable fs (abspath output_pdf) = true ->
  output_apart (abspath images_dir) (abspath output_pdf) exts = true ->
  exists fs' : FS,
    images_to_pdf images_dir output_pdf exts fs = (Ok (abspath output_pdf), fs')
    /\ images_to_pdf images_dir output_pdf exts fs' = (Ok (abspath output_pdf), fs').
Proof.
  intros Hdir Hsome Hopen Hw Hapart.
  set (d := abspath images_dir) in *. set (p := abspath output_pdf) in *.
  assert (Hlen : length ims = length (select (OS.entries fs d) exts)).
  { rewrite (open_all_length _ _ _ Hopen), length_map.
    apply Permutation_length, sort_perm. }
  assert (Hims : map normalize ims <> []).
  { destruct ims; [simpl in Hlen; lia|discriminate]. }
  destruct (emit_exact fs output_pdf (map normalize ims) Hims Hw
              (normalize_encodable ims))
    as (fs1 & Hrun & Hp & Hdir1 & Hother & Hkeep).
  fold p in Hrun, Hp, Hdir1, Hother.
  set (fs' := <[p := File (PdfFile (map (fun im => mkPage im 100)
                                        (map normalize ims)))]> fs1) in *.
  assert (Hnotdir : is_directory (node_at fs p) = false).
  { unfold writable in Hw. apply andb_true_iff in Hw as [_ Hw].
    now apply negb_true_iff in Hw. }
  (* existing nodes other than the output are as before *)
  assert (Hsame : forall q, is_Some (fs !! q) -> q <> p -> fs' !! q = fs !! q).
  { intros q Hq Hne. unfold fs'. rewrite lookup_insert_ne by congruence.
    now apply Hkeep. }
  (* what is new lies on the way to the output *)
  assert (Hnew : forall q, is_Some (fs' !! q) -> fs !! q = None -> q `prefix_of` p).
  { intros q Hq Hnone. destruct (decide (q = p)) as [->|Hne]; [reflexivity|].
    unfold fs' in Hq. rewrite lookup_insert_ne in Hq by congruence.
    destruct (decide (q `prefix_of` dirname p)) as [Hpre|Hpre].
    - etransitivity; [exact Hpre|apply dirname_prefix].
    - rewrite (Hother q Hpre), Hnone in Hq. now destruct Hq. }
  assert (Hdir' : is_directory (node_at fs' d) = true).
  { destruct d as [|x d'] eqn:Ed; [reflexivity|]. cbn [node_at] in Hdir |- *.
    destruct (fs !! (x :: d')) as [nd|] eqn:E; [|discriminate].
    rewrite Hsame, E; [exact Hdir|rewrite E; eauto|].
    intros Ep. rewrite <- Ep in Hnotdir. cbn [node_at] in Hnotdir.
    rewrite E in Hnotdir. congruence. }
  assert (Hsel : select (OS.entries fs' d) exts ≡ₚ select (OS.entries fs d) exts).
  { unfold select. apply NoDup_Permutation.
    - apply NoDup_list_filter, NoDup_entries.
    - apply NoDup_list_filter, NoDup_entries.
    - intros n. rewrite !list_elem_of_In, !filter_In, <- !list_elem_of_In,
        !elem_of_entries.
      split; intros [Hex Hmatch]; (split; [|exact Hmatch]).
      + destruct (fs !! join d n) as [nd|] eqn:E; [eauto|].
        exfalso. apply Hnew in Hex; [|exact E].
        apply component_below_spec in Hex.
        unfold output_apart in Hapart. rewrite Hex, Hmatch in Hapart.
        discriminate.
      + destruct (decide (join d n = p)) as [Ep|Hne].
        * unfold fs'. rewrite Ep, lookup_insert_eq. eauto.
        * now rewrite Hsame.
  }
  assert (Hopen' : open_all fs' (map (join d)
                     (PyStr.sort (select (OS.entries fs' d) exts))) = Ok ims).
  { rewrite (sort_perm_eq _ _ Hsel). apply (open_all_agree fs); [exact Hopen|].
    intros q Hq Hex. apply Hsame; [exact Hex|].
    intros ->. apply list_elem_of_fmap in Hq as (n & Ep & Hn).
    rewrite sort_perm in Hn. unfold select in Hn.
    apply list_elem_of_In, filter_In in Hn as [_ Hmatch].
    assert (Hc : component_below d p = Some n).
    { apply component_below_spec. rewrite Ep. reflexivity. }
    unfold output_apart in Hapart. rewrite Hc, Hmatch in Hapart. discriminate. }
  exists fs'. split.
  - rewrite images_to_pdf_unfold. fold d. rewrite Hdir.
    destruct (select (OS.entries fs d) exts); [simpl in Hsome; lia|].
    rewrite Hopen. exact Hrun.
  - rewrite images_to_pdf_unfold. fold d. rewrite Hdir'.
    destruct (select (OS.entries fs' d) exts) eqn:E.
    + apply Permutation_nil_l in Hsel. symmetry in Hsel.
      rewrite Hsel in Hsome. simpl in Hsome. lia.
    + rewrite Hopen'.
      apply emit_again; [exact Hims|exact Hp|exact Hdir1|apply normalize_encodable].
Qed.

End CombineAgain.

(** On the sample file system. *)
Lemma images_to_pdf_from_files_again_changes_nothing_witness :
  exists fs' : FS,
    @images_to_pdf_from_files Example.host0 ["pics/b.PNG"; "pics/a.jpg"]
      "album.pdf" Example.fs0
    = (Ok ["home"; "u"; "album.pdf"], fs')
    /\ @images_to_pdf_from_files Example.host0 ["pics/b.PNG"; "pics/a.jpg"]
         "album.pdf" fs'
       = (Ok ["home"; "u"; "album.pdf"], fs').
Proof.
  apply (@images_to_pdf_from_files_again_changes_nothing Example.host0
           Example.fs0 ["pics/b.PNG"; "pics/a.jpg"] "album.pdf"
           [Example.logo; Example.photo]).
  - vm_compute. lia.
  - vm_compute. reflexivity.
  - vm_compute. reflexivity.
  - apply (bool_decide_unpack _). vm_compute. exact I.
Defined.

(** On the sample file system, with the output written into the input
    directory itself. *)
Lemma images_to_pdf_again_changes_nothing_witness :
  exists fs' : FS,
    @images_to_pdf Example.host0 "pics" "pics/album.pdf" Example.exts0 Example.fs0
    = (Ok ["home"; "u"; "pics"; "album.pdf"], fs')
    /\ @images_to_pdf Example.host0 "pics" "pics/album.pdf" Example.exts0 fs'
       = (Ok ["home"; "u"; "pics"; "album.pdf"], fs').
Proof.
  apply (@images_to_pdf_again_changes_nothing Example.host0 Example.fs0
           "pics" "pics/album.pdf" Example.exts0 [Example.photo; Example.logo]).
  - vm_compute. reflexivity.
  - vm_compute. lia.
  - vm_compute. reflexivity.
  - vm_compute. reflexivity.
  - vm_compute. reflexivity.
Defined.

(** *** Images in modes other than ["RGBA"] *)

Lemma whole_paste_covers (src : list PIL.rgb) : forall n,
  (length src <= n)%nat ->
  zip_with (fun _ s => s) (repeat PIL.white n) src = src.
Proof.
  induction src as [|c src IH]; intros n Hn.
  - now destruct n.
  - destruct n as [|n]; [simpl in Hn; lia|].
    cbn [repeat zip_with]. f_equal. apply IH. simpl in Hn. lia.
Qed.

(** X16. For an image in any mode other than ["RGBA"] whose pixel data
    fits its size, the page shows the pixels of the plain RGB conversion:
    the white background made on lines 68 and 95 is covered entirely, and
    an alpha band (mode ["LA"]) or a palette transparency entry takes no
    part in the result. *)
Theorem normalize_not_RGBA_is_conversion (im : PIL.Image) :
  PIL.mode im <> "RGBA" ->
  length (PIL.to_rgb (PIL.data im))
  = Z.to_nat (fst (PIL.size im) * snd (PIL.size im)) ->
  PIL.data (normalize im) = PIL.data (PIL.convert_RGB im).
Proof.
  intros Hmode Hlen. unfold normalize.
  apply String.eqb_neq in Hmode. rewrite Hmode.
  destruct (_ || _); [|reflexivity].
  unfold PIL.paste, PIL.convert_RGB, PIL.new_RGB. cbn [PIL.data PIL.to_rgb].
  f_equal. apply whole_paste_covers. lia.
Qed.

(** On the sample image in mode ["LA"]. *)
Lemma normalize_not_RGBA_is_conversion_witness :
  PIL.data (normalize Example.ghost) = PIL.data (PIL.convert_RGB Example.ghost).
Proof.
  apply (normalize_not_RGBA_is_conversion Example.ghost).
  - vm_compute. discriminate.
  - reflexivity.
Defined.

(** *** Nothing is created except the outputs and the directories above them *)

Lemma adds_only_ret {A} P (a : A) : adds_only P (ret a).
Proof. intros fs q Hnone [x Hx]. simpl in Hx. congruence. Qed.

Lemma adds_only_raise {A} P e : adds_only P (@raise A e).
Proof. intros fs q Hnone [x Hx]. simpl in Hx. congruence. Qed.

Lemma adds_only_bind {A B} P (c : M A) (k : A -> M B) :
  adds_only P c -> (forall a, adds_only P (k a)) -> adds_only P (bind c k).
Proof.
  intros Hc Hk fs q Hnone Hsome. unfold bind in Hsome.
  specialize (Hc fs q Hnone).
  destruct (c fs) as [[a|e] fs1]; simpl in Hc; [|now apply Hc].
  destruct (fs1 !! q) as [nd|] eqn:E; [apply Hc; eauto|].
  now apply (Hk a fs1 q E).
Qed.

Lemma adds_only_weaken {A} (P Q : path -> Prop) (c : M A) :
  (forall q, P q -> Q q) -> adds_only P c -> adds_only Q c.
Proof. intros HPQ Hc fs q Hnone Hsome. apply HPQ. now apply (Hc fs q). Qed.

Lemma adds_only_for_each {A S} P (body : A -> S -> M S) xs :
  (forall x s, adds_only P (body x s)) -> forall s, adds_only P (for_each xs body s).
Proof.
  intros Hbody. induction xs as [|x xs IH]; intros s; simpl.
  - apply adds_only_ret.
  - apply adds_only_bind; [apply Hbody|exact IH].
Qed.

Lemma adds_only_pure {A} P (c : M A) :
  (forall fs, snd (c fs) = fs) -> adds_only P c.
Proof. intros Hpure fs q Hnone [x Hx]. rewrite Hpure in Hx. congruence. Qed.

Lemma isdir_pure (d : path) (fs : FS) : snd (OS.isdir d fs) = fs.
Proof. reflexivity. Qed.

Lemma isfile_pure (p : path) (fs : FS) : snd (OS.isfile p fs) = fs.
Proof. reflexivity. Qed.

Lemma listdir_pure (d : path) (fs : FS) : snd (OS.listdir d fs) = fs.
Proof. unfold OS.listdir. destruct (node_at fs d) as [[c| ]| ]; reflexivity. Qed.

Lemma convert_from_path_pure `{Host} (p : path) (pp : option string) (fs : FS) :
  snd (convert_from_path p pp fs) = fs.
Proof.
  unfold convert_from_path. destruct (negb _); [reflexivity|].
  destruct (node_at fs p) as [[[ | | ]| ]| ]; reflexivity.
Qed.

(** [makedirs] creates nothing but the directory and its ancestors. *)
Lemma adds_only_makedirs_from rest : forall pre,
  adds_only (fun q => q `prefix_of` pre ++ rest) (OS.makedirs_from pre rest).
Proof.
  induction rest as [|n rest IH]; intros pre fs q Hnone Hsome.
  - destruct Hsome as [x Hx]. simpl in Hx. congruence.
  - cbn [OS.makedirs_from] in Hsome. unfold join in Hsome.
    rewrite node_at_nonempty in Hsome.
    replace (pre ++ n :: rest) with ((pre ++ [n]) ++ rest)
      by now rewrite <- app_assoc.
    destruct (fs !! (pre ++ [n])) as [[c| ]| ] eqn:E.
    + destruct Hsome as [x Hx]. simpl in Hx. congruence.
    + now apply (IH (pre ++ [n]) fs).
    + destruct (decide (q = pre ++ [n])) as [->|Hne].
      * now exists rest.
      * apply (IH (pre ++ [n]) (<[pre ++ [n] := Dir]> fs)); [|exact Hsome].
        now rewrite lookup_insert_ne.
Qed.

Lemma adds_only_makedirs d : adds_only (fun q => q `prefix_of` d) (OS.makedirs d).
Proof. apply (adds_only_makedirs_from d []). Qed.

Lemma adds_only_write_file p c : adds_only (fun q => q = p) (OS.write_file p c).
Proof.
  intros fs q Hnone Hsome. unfold OS.write_file in Hsome.
  destruct (decide (q = p)) as [->|Hne]; [reflexivity|]. exfalso.
  destruct p as [|x p]; [destruct Hsome as [y Hy]; simpl in Hy; congruence|].
  destruct (node_at fs (dirname (x :: p))) as [[c'| ]| ];
    try (destruct Hsome as [y Hy]; simpl in Hy; congruence).
  destruct (fs !! (x :: p)) as [[c'| ]| ]; simpl in Hsome;
    try rewrite lookup_insert_ne in Hsome by congruence;
    destruct Hsome as [y Hy]; congruence.
Qed.

Section AddsFacts.

Context `{Host}.

(** X17. The combiners create nothing but the output file and the
    directories above it: whatever the call returns, a path that held
    nothing before and holds something afterwards is the absolute output
    path or one of its ancestors. *)
Theorem combiners_create_only_towards_output (images_dir : string)
    (exts file_paths : list string) (output_pdf : string) (fs : FS) (q : path) :
  fs !! q = None ->
  (is_Some (snd (images_to_pdf images_dir output_pdf exts fs) !! q) ->
   q `prefix_of` abspath output_pdf)
  /\ (is_Some (snd (images_to_pdf_from_files file_paths output_pdf fs) !! q) ->
      q `prefix_of` abspath output_pdf).
Proof.
  intros Hnone.
  set (P := fun q : path => q `prefix_of` abspath output_pdf).
  assert (Htail : forall imgs,
    adds_only P
      (is_dir <- OS.isdir (dirname (abspath output_pdf)) ;;
       (if negb is_dir then OS.makedirs (dirname (abspath output_pdf)) else ret tt) ;;
       match imgs with
       | [] => raise IndexError
       | first :: rest =>
           save_pdf first (abspath output_pdf) 100 rest ;; ret (abspath output_pdf)
       end)).
  { intros imgs. apply adds_only_bind; [apply adds_only_pure, isdir_pure|].
    intros b. apply adds_only_bind.
    - destruct (negb b); [|apply adds_only_ret].
      apply (adds_only_weaken (fun q => q `prefix_of` dirname (abspath output_pdf))).
      + intros q' Hq'. unfold P. etransitivity; [exact Hq'|apply dirname_prefix].
      + apply adds_only_makedirs.
    - intros _. destruct imgs as [|first rest]; [apply adds_only_raise|].
      apply adds_only_bind; [|intros _; apply adds_only_ret].
      unfold save_pdf. destruct (forallb _ _); [|apply adds_only_raise].
      apply (adds_only_weaken (fun q => q = abspath output_pdf)).
      + intros q' ->. unfold P. reflexivity.
      + apply adds_only_write_file. }
  assert (Hloop : forall (A : Type) (loc : A -> path) xs,
    adds_only P (for_each xs (fun x imgs =>
                    im <- Image_open (loc x) ;;
                    ret (imgs ++ [normalize im])) [])).
  { intros A loc xs. apply adds_only_for_each. intros x imgs.
    apply adds_only_bind; [apply adds_only_pure, Image_open_pure|].
    intros im. apply adds_only_ret. }
  split.
  - revert fs q Hnone. change (adds_only P (images_to_pdf images_dir output_pdf exts)).
    unfold images_to_pdf.
    apply adds_only_bind; [apply adds_only_pure, isdir_pure|]. intros b.
    destruct (negb b); [apply adds_only_raise|].
    apply adds_only_bind; [apply adds_only_pure, listdir_pure|]. intros entries.
    destruct (select entries exts) as [|f files]; [apply adds_only_raise|].
    apply adds_only_bind; [|exact Htail].
    apply (Hloop _ (join (abspath images_dir))).
  - revert fs q Hnone.
    change (adds_only P (images_to_pdf_from_files file_paths output_pdf)).
    unfold images_to_pdf_from_files.
    destruct file_paths as [|p ps]; [apply adds_only_raise|].
    apply adds_only_bind; [|exact Htail].
    apply (Hloop _ abspath).
Qed.

(** X18. [convert_pdf_to_images] creates nothing but files named
    [page_<n>.png] in the output directory, and that directory with the
    directories above it. *)
Theorem convert_creates_only_pages_and_directory (pdf_path : string)
    (poppler_path : option string) (output_dir : string) (fs : FS) (q : path) :
  fs !! q = None ->
  is_Some (snd (convert_pdf_to_images pdf_path poppler_path output_dir fs) !! q) ->
  q `prefix_of` abspath output_dir
  \/ exists n, q = join (abspath output_dir) (page_name n).
Proof.
  revert fs q.
  change (adds_only (fun q => q `prefix_of` abspath output_dir
                              \/ exists n, q = join (abspath output_dir) (page_name n))
                    (convert_pdf_to_images pdf_path poppler_path output_dir)).
  unfold convert_pdf_to_images.
  apply adds_only_bind; [apply adds_only_pure, isfile_pure|]. intros b.
  destruct (negb b); [apply adds_only_raise|].
  apply adds_only_bind; [apply adds_only_pure, isdir_pure|]. intros b'.
  apply adds_only_bind.
  { destruct (negb b'); [|apply adds_only_ret].
    apply (adds_only_weaken (fun q => q `prefix_of` abspath output_dir));
      [now left|apply adds_only_makedirs]. }
  intros _. destruct (negb pdf2image_installed); [apply adds_only_raise|].
  apply adds_only_bind; [apply adds_only_pure, convert_from_path_pure|].
  intros pages.
  apply adds_only_bind; [|intros c; apply adds_only_ret].
  apply adds_only_for_each. intros page c.
  apply adds_only_bind; [|intros _; apply adds_only_ret].
  apply (adds_only_weaken (fun q => q = join (abspath output_dir) (page_name c))).
  - intros q ->. right. now exists c.
  - apply adds_only_write_file.
Qed.

End AddsFacts.

(** On the sample file system: nothing appears in [/home/u/other]. *)
Lemma combiners_create_only_towards_output_witness :
  (is_Some (snd (@images_to_pdf Example.host0 "pics" "out/album.pdf" Example.exts0
                   Example.fs0) !! ["home"; "u"; "out"]) ->
   ["home"; "u"; "out"] `prefix_of` ["home"; "u"; "out"; "album.pdf"])
  /\ (is_Some (snd (@images_to_pdf_from_files Example.host0 ["pics/a.jpg"]
                      "out/album.pdf" Example.fs0) !! ["home"; "u"; "out"]) ->
      ["home"; "u"; "out"] `prefix_of` ["home"; "u"; "out"; "album.pdf"]).
Proof.
  apply (@combiners_create_only_towards_output Example.host0 "pics" Example.exts0
           ["pics/a.jpg"] "out/album.pdf" Example.fs0 ["home"; "u"; "out"]).
  vm_compute. reflexivity.
Defined.

(** On the sample file system: the first page file is new. *)
Lemma convert_creates_only_pages_and_directory_witness :
  ["home"; "u"; "pages"; "page_1.png"] `prefix_of` ["home"; "u"; "pages"]
  \/ exists n, ["home"; "u"; "pages"; "page_1.png"]
               = join ["home"; "u"; "pages"] (page_name n).
Proof.
  apply (@convert_creates_only_pages_and_directory Example.host0 "doc.pdf" None
           "pages" Example.fs0 ["home"; "u"; "pages"; "page_1.png"]).
  - vm_compute. reflexivity.
  - vm_compute. eauto.
Defined.
